(** * Slack agent message routing: [lib/slack/agent/handleMessages.ts]

    A shallow embedding of [handleMessage], [isAgentThread],
    [handleAssistantThreadMessage] and their helpers.  The persistence
    layer is an in-memory pair of tables, the Slack Web API is an oracle
    that answers each request from the history of calls made so far, and
    every call the code makes to a collaborator (database, Slack, job
    queue) is appended to a log, so that "performs no call" is a statement
    about that log. *)

From Stdlib Require Import List String Ascii ZArith Bool Lia.
Import ListNotations.
Open Scope string_scope.
Open Scope Z_scope.

(** ** JavaScript strings

    Strings are sequences of characters.  [Js.toLowerCase] maps the ASCII
    capitals and nothing else.  It stands for [String.prototype.toLowerCase]
    in two places only: where [isAgentThread] searches the lower-cased text
    for ["(aside)"], a marker of ASCII letters that no other character is
    mapped to, and at the sample inputs, which are ASCII.  Where mailbox
    names are compared, in [findMentionedMailbox], the case mapping of the
    runtime is a parameter of the handlers. *)

Module Js.

Definition lowerChar (c : ascii) : ascii :=
  let n := nat_of_ascii c in
  if ((65 <=? n) && (n <=? 90))%nat then ascii_of_nat (n + 32) else c.

Fixpoint toLowerCase (s : string) : string :=
  match s with
  | EmptyString => EmptyString
  | String c r => String (lowerChar c) (toLowerCase r)
  end.

Fixpoint startsWith (s p : string) : bool :=
  match p, s with
  | EmptyString, _ => true
  | String _ _, EmptyString => false
  | String a p', String b s' => Ascii.eqb a b && startsWith s' p'
  end.

(** [s.includes(sub)] *)
Fixpoint includes (s sub : string) : bool :=
  startsWith s sub
  || match s with
     | EmptyString => false
     | String _ r => includes r sub
     end.

(** After ["<@"]: the run [[^>]+] followed by [">"].  [seen] records that
    the run is not empty. *)
Fixpoint mentionTail (seen : bool) (s : string) : bool :=
  match s with
  | EmptyString => false
  | String c r => if Ascii.eqb c ">" then seen else mentionTail true r
  end.

(** [s.match(/<@[^>]+>/)] as a test. *)
Fixpoint matchesMention (s : string) : bool :=
  match s with
  | EmptyString => false
  | String c r =>
      match r with
      | String d r' =>
          (Ascii.eqb c "<" && Ascii.eqb d "@" && mentionTail false r')
          || matchesMention r
      | EmptyString => false
      end
  end.

(** Truthiness of an optional string: [undefined], [null] and [""] are
    falsy. *)
Definition truthy (o : option string) : bool :=
  match o with
  | Some (String _ _) => true
  | _ => false
  end.

(** Truthiness of an optional number: [null] and [0] are falsy. *)
Definition truthyNum (o : option Z) : bool :=
  match o with
  | Some n => negb (n =? 0)
  | None => false
  end.

Definition isSome {A : Type} (o : option A) : bool :=
  match o with Some _ => true | None => false end.

(** [a ?? b] *)
Definition nullish {A : Type} (a b : option A) : option A :=
  match a with Some _ => a | None => b end.

End Js.

(** ** Data model *)

Module Mailbox.
Record t : Type := mk
  { id : Z;
    name : string;
    slackBotToken : option string;
    slackBotUserId : option string }.
End Mailbox.

(** [SlackMailboxInfo]: the mailboxes of the workspace and the one that is
    currently selected, if any. *)
Record SlackMailboxInfo : Type :=
  { mailboxes : list Mailbox.t;
    currentMailbox : option Mailbox.t }.

(** The fields of [GenericMessageEvent | AppMentionEvent] that the
    handlers read. *)
Module Event.
Record BotProfile : Type := { app_id : string }.
Record t : Type := mk
  { channel : string;
    ts : string;
    thread_ts : option string;
    text : option string;
    user : option string;
    bot_id : option string;
    bot_profile : option BotProfile }.
End Event.

(** A message of a thread as [conversations.replies] returns it. *)
Module Reply.
Record t : Type := mk
  { user : option string;
    text : option string }.
End Reply.

(** Row of [agentThreads]. *)
Module AgentThread.
Record t : Type := mk
  { id : Z;
    slackChannel : string;
    threadTs : string;
    mailboxId : option Z }.
End AgentThread.

(** Row of [agentMessages]. *)
Module AgentMessage.
Record t : Type := mk
  { id : Z;
    agentThreadId : Z;
    role : string;
    content : string;
    slackChannel : string;
    messageTs : string }.
End AgentMessage.

(** Payload of the ["slack/agent.message"] job. *)
Record JobPayload : Type :=
  { slackUserId : option string;
    statusMessageTs : string;
    agentThreadId : Z }.

(** ** Calls to collaborators *)

Inductive Op : Type :=
| DbFindFirstThread (slackChannel threadTs : string)
| DbInsertThread (slackChannel threadTs : string)
| DbInsertMessage (agentThreadId : Z)
    (role content slackChannel messageTs : string)
| DbUpdateThread (threadId mailboxId : Z)
| ChatPostMessage (token channel thread_ts text : string)
| ConversationsReplies (token channel ts : string) (limit : Z)
| TriggerEvent (name : string) (payload : JobPayload).

Definition isDbCall (op : Op) : bool :=
  match op with
  | DbFindFirstThread _ _ | DbInsertThread _ _
  | DbInsertMessage _ _ _ _ _ | DbUpdateThread _ _ => true
  | _ => false
  end.

Definition isSlackCall (op : Op) : bool :=
  match op with
  | ChatPostMessage _ _ _ _ | ConversationsReplies _ _ _ _ => true
  | _ => false
  end.

Definition isTriggerEvent (op : Op) : bool :=
  match op with
  | TriggerEvent _ _ => true
  | _ => false
  end.

(** An awaited promise either resolves or rejects. *)
Inductive Promise (A : Type) : Type :=
| Resolved (a : A)
| Rejected (reason : string).
Arguments Resolved {A} a.
Arguments Rejected {A} reason.

(** The Slack Web API.  Each answer may depend on the calls made so far.
    [postMessage] answers with the [ts] of the response, if it has one;
    [replies] with the [messages] of the response, if it has any. *)
Record SlackApi : Type :=
  { postMessage :
      list Op -> string -> string -> string -> string ->
      Promise (option string);
    replies :
      list Op -> string -> string -> string -> Z ->
      Promise (option (list Reply.t)) }.

(** ** State, exceptions and the monad of the handlers *)

Record World : Type :=
  { agentThreads : list AgentThread.t;
    agentMessages : list AgentMessage.t;
    nextThreadId : Z;
    nextMessageId : Z;
    log : list Op }.

Inductive Exn : Type :=
| NotDefined
| Error (message : string)
| Rejection (reason : string).

Inductive Completion (A : Type) : Type :=
| Normal (a : A)
| Thrown (e : Exn).
Arguments Normal {A} a.
Arguments Thrown {A} e.

Definition M (A : Type) : Type := World -> Completion A * World.

Definition ret {A : Type} (a : A) : M A := fun w => (Normal a, w).

Definition throw {A : Type} (e : Exn) : M A := fun w => (Thrown e, w).

Definition bind {A B : Type} (m : M A) (k : A -> M B) : M B :=
  fun w =>
    match m w with
    | (Normal a, w') => k a w'
    | (Thrown e, w') => (Thrown e, w')
    end.

Declare Scope handler_scope.
Delimit Scope handler_scope with handler.
Notation "x <- m ;; k" := (bind m (fun x => k))
  (at level 61, m at next level, right associativity) : handler_scope.
Notation "m ;; k" := (bind m (fun _ => k))
  (at level 61, right associativity) : handler_scope.
Open Scope handler_scope.

Definition logged (op : Op) (w : World) : World :=
  {| agentThreads := agentThreads w;
     agentMessages := agentMessages w;
     nextThreadId := nextThreadId w;
     nextMessageId := nextMessageId w;
     log := log w ++ [op] |}.

Definition await {A : Type} (p : Promise A) : M A :=
  match p with
  | Resolved a => ret a
  | Rejected reason => throw (Rejection reason)
  end.

(** The calls appended to the log between two worlds. *)
Definition newOps (w w' : World) : list Op :=
  skipn (List.length (log w)) (log w').

Definition result {A : Type} (r : Completion A * World) : Completion A :=
  fst r.

Definition world {A : Type} (r : Completion A * World) : World := snd r.

(** ** The persistence layer

    The calls are the ones the code makes, with the arguments it gives
    them; each is awaited.

    Every call is answered.  A call that is rejected ends the run with that
    rejection, as any awaited call does; the statements are about the runs
    in which the persistence layer and the job queue answer, or say so
    where they hold of the other runs too.

    A table is the list of its rows.  The lookup has no [ORDER BY], and the
    list stands for no order the database keeps: with no two Threads for
    one channel and thread root ([uniqueRoots]) at most one row matches,
    and the lookup answers with that row wherever it stands
    ([lookup_unique]).  The statements that follow a Thread from one
    lookup to the next assume [uniqueRoots]. *)

Definition threadMatches (slackChannel threadTs : string)
    (t : AgentThread.t) : bool :=
  String.eqb (AgentThread.slackChannel t) slackChannel
  && String.eqb (AgentThread.threadTs t) threadTs.

(** [db.query.agentThreads.findFirst({ where: and(eq(slackChannel, ..),
    eq(threadTs, ..)) })] *)
Definition findFirstAgentThread (slackChannel threadTs : string)
    : M (option AgentThread.t) :=
  fun w =>
    (Normal (find (threadMatches slackChannel threadTs) (agentThreads w)),
     logged (DbFindFirstThread slackChannel threadTs) w).

(** [db.insert(agentThreads).values({..}).returning().then(takeUniqueOrThrow)]:
    the row gets the next identity value and no mailbox. *)
Definition insertAgentThread (slackChannel threadTs : string)
    : M AgentThread.t :=
  fun w =>
    let row := AgentThread.mk (nextThreadId w) slackChannel threadTs None in
    (Normal row,
     {| agentThreads := agentThreads w ++ [row];
        agentMessages := agentMessages w;
        nextThreadId := nextThreadId w + 1;
        nextMessageId := nextMessageId w;
        log := log w ++ [DbInsertThread slackChannel threadTs] |}).

(** Modelled from the spec: the uniqueness constraint of [agentMessages]
    (the schema, [db/schema], is not among the sources).  Section 3: a
    Message is keyed by (thread id, message timestamp). *)
Definition conflicts (agentThreadId : Z) (messageTs : string)
    (m : AgentMessage.t) : bool :=
  (AgentMessage.agentThreadId m =? agentThreadId)
  && String.eqb (AgentMessage.messageTs m) messageTs.

(** [db.insert(agentMessages).values({..}).onConflictDoNothing().returning()],
    destructured to its first row: [None] when the row conflicts.  The
    identity value that a conflicting insert may consume is not modelled;
    no statement reads [nextMessageId]. *)
Definition insertAgentMessage (agentThreadId : Z)
    (role content slackChannel messageTs : string)
    : M (option AgentMessage.t) :=
  fun w =>
    let op :=
      DbInsertMessage agentThreadId role content slackChannel messageTs in
    if existsb (conflicts agentThreadId messageTs) (agentMessages w)
    then (Normal None, logged op w)
    else
      let row :=
        AgentMessage.mk (nextMessageId w) agentThreadId role content
          slackChannel messageTs in
      (Normal (Some row),
       {| agentThreads := agentThreads w;
          agentMessages := agentMessages w ++ [row];
          nextThreadId := nextThreadId w;
          nextMessageId := nextMessageId w + 1;
          log := log w ++ [op] |}).

Definition setMailboxId (threadId mailboxId : Z) (t : AgentThread.t)
    : AgentThread.t :=
  if AgentThread.id t =? threadId
  then AgentThread.mk (AgentThread.id t) (AgentThread.slackChannel t)
         (AgentThread.threadTs t) (Some mailboxId)
  else t.

(** [db.update(agentThreads).set({ mailboxId }).where(eq(agentThreads.id, ..))] *)
Definition updateAgentThread (threadId mailboxId : Z) : M unit :=
  fun w =>
    (Normal tt,
     {| agentThreads := map (setMailboxId threadId mailboxId) (agentThreads w);
        agentMessages := agentMessages w;
        nextThreadId := nextThreadId w;
        nextMessageId := nextMessageId w;
        log := log w ++ [DbUpdateThread threadId mailboxId] |}).

(** Modelled from the spec: [triggerEvent] of [jobs/trigger], which is not
    among the sources.  Section 6: enqueue a named job with a payload, fire
    and forget.  The queue is read off the log; the call is answered, as
    the calls to the persistence layer are. *)
Definition triggerEvent (name : string) (payload : JobPayload) : M unit :=
  fun w => (Normal tt, logged (TriggerEvent name payload) w).

(** Modelled from the spec: [assertDefined] of [components/utils/assert],
    which is not among the sources.  Section 7(a): a missing required
    credential is a fatal precondition failure, raised immediately, with no
    fallback. *)
Definition assertDefined {A : Type} (value : option A) : M A :=
  match value with
  | Some v => ret v
  | None => throw NotDefined
  end.

(** ** The handlers *)

Section Handlers.

(** The Slack Web API behind every [WebClient]; a client is its token. *)
Variable slack : SlackApi.

(** The prompt text of [findMailboxForEvent], which is not among the
    sources. *)
Variable WHICH_MAILBOX_MESSAGE : string.

(** [String.prototype.toLowerCase] of the runtime, which
    [findMentionedMailbox] applies to the text and to the names of the
    mailboxes.  It maps every cased letter of Unicode, not only the ASCII
    capitals of [Js.toLowerCase]; the statements hold for any mapping. *)
Variable toLowerCase : string -> string.

(** [client.chat.postMessage({ channel, thread_ts, text })], answering with
    the [ts] of the response. *)
Definition chat_postMessage (client channel thread_ts text : string)
    : M (option string) :=
  fun w =>
    await (postMessage slack (log w) client channel thread_ts text)
      (logged (ChatPostMessage client channel thread_ts text) w).

(** [client.conversations.replies({ channel, ts, limit })], answering with
    the [messages] of the response. *)
Definition conversations_replies (client channel ts : string) (limit : Z)
    : M (option (list Reply.t)) :=
  fun w =>
    await (replies slack (log w) client channel ts limit)
      (logged (ConversationsReplies client channel ts limit) w).

(** [event.thread_ts ?? event.ts] *)
Definition threadRoot (event : Event.t) : string :=
  match Event.thread_ts event with
  | Some thread_ts => thread_ts
  | None => Event.ts event
  end.

Definition postThinkingMessage (client channel threadTs : string)
    : M string :=
  message <- chat_postMessage client channel threadTs "_Thinking..._" ;;
  match message with
  | Some (String _ _ as ts) => ret ts
  | _ => throw (Error "Failed to post initial message")
  end.

Definition askWhichMailbox (event : Event.t) (mailboxes : list Mailbox.t)
    : M unit :=
  client <- assertDefined
              match nth_error mailboxes 0 with
              | Some m => Mailbox.slackBotToken m
              | None => None
              end ;;
  _ <- chat_postMessage client (Event.channel event) (threadRoot event)
         (WHICH_MAILBOX_MESSAGE ++ " ("
          ++ String.concat "/" (map Mailbox.name mailboxes) ++ ")") ;;
  ret tt.

Definition findMentionedMailbox (messageText : string)
    (mailboxes : list Mailbox.t) (currentMailbox : Mailbox.t)
    : option Mailbox.t :=
  if (List.length mailboxes <=? 1)%nat then None
  else
    let lowercaseText := toLowerCase messageText in
    find (fun mailbox =>
            negb (Mailbox.id mailbox =? Mailbox.id currentMailbox)
            && Js.includes lowercaseText
                 (toLowerCase (Mailbox.name mailbox)))
         mailboxes.

Definition postMailboxSwitchMessage (client channel threadTs : string)
    (mailboxName : string) : M unit :=
  _ <- chat_postMessage client channel threadTs
         ("_Switched to the " ++ mailboxName ++ " mailbox_") ;;
  ret tt.

(** [id === agentThread.mailboxId] *)
Definition isMailboxId (mailboxId : option Z) (m : Mailbox.t) : bool :=
  match mailboxId with
  | Some n => Mailbox.id m =? n
  | None => false
  end.

Definition handleMessage (event : Event.t) (mailboxInfo : SlackMailboxInfo)
    : M unit :=
  if Js.truthy (Event.bot_id event) || Js.isSome (Event.bot_profile event)
  then ret tt
  else
    existingThread <-
      findFirstAgentThread (Event.channel event) (threadRoot event) ;;
    agentThread <-
      match existingThread with
      | Some t => ret t
      | None => insertAgentThread (Event.channel event) (threadRoot event)
      end ;;
    message <-
      match Event.text event with
      | Some (String _ _ as text) =>
          insertAgentMessage (AgentThread.id agentThread) "user" text
            (Event.channel event) (Event.ts event)
      | _ => ret None
      end ;;
    match message, Event.text event with
    | Some _, Some (String _ _ as text) =>
        match
          Js.nullish
            (find (isMailboxId (AgentThread.mailboxId agentThread))
               (mailboxes mailboxInfo))
            (currentMailbox mailboxInfo)
        with
        | None => askWhichMailbox event (mailboxes mailboxInfo)
        | Some mailbox =>
            let mentionedMailbox :=
              findMentionedMailbox text (mailboxes mailboxInfo) mailbox in
            (if negb (Js.truthyNum (AgentThread.mailboxId agentThread))
                || Js.isSome mentionedMailbox
             then
               let mailboxToUse :=
                 match mentionedMailbox with
                 | Some m => m
                 | None => mailbox
                 end in
               updateAgentThread (AgentThread.id agentThread)
                 (Mailbox.id mailboxToUse) ;;
               if Js.isSome mentionedMailbox
                  && (1 <? List.length (mailboxes mailboxInfo))%nat
               then
                 client <- assertDefined (Mailbox.slackBotToken mailboxToUse) ;;
                 postMailboxSwitchMessage client (Event.channel event)
                   (threadRoot event) (Mailbox.name mailboxToUse)
               else ret tt
             else ret tt) ;;
            client <- assertDefined (Mailbox.slackBotToken mailbox) ;;
            statusMessageTs <-
              postThinkingMessage client (Event.channel event)
                (threadRoot event) ;;
            triggerEvent "slack/agent.message"
              {| slackUserId := Event.user event;
                 statusMessageTs := statusMessageTs;
                 agentThreadId := AgentThread.id agentThread |}
        end
    | _, _ => ret tt
    end.

(** A truthy optional string, or nothing. *)
Definition nonEmpty (o : option string) : option string :=
  if Js.truthy o then o else None.

(** [message.user !== botUserId] is the negation of this test. *)
Definition isUser (botUserId : string) (user : option string) : bool :=
  match user with
  | Some u => String.eqb u botUserId
  | None => false
  end.

(** The condition of the loop over the fetched messages. *)
Definition mentionsBot (botUserId : string) (message : Reply.t) : bool :=
  negb (isUser botUserId (Reply.user message))
  && match Reply.text message with
     | Some text => Js.includes text ("<@" ++ botUserId ++ ">")
     | None => false
     end.

Definition isAgentThread (event : Event.t) (mailboxInfo : SlackMailboxInfo)
    : M bool :=
  match nth_error (mailboxes mailboxInfo) 0 with
  | None => ret false
  | Some mailbox =>
      match
        nonEmpty (Mailbox.slackBotToken mailbox),
        nonEmpty (Mailbox.slackBotUserId mailbox),
        nonEmpty (Event.thread_ts event)
      with
      | Some slackBotToken, Some slackBotUserId, Some thread_ts =>
          if String.eqb thread_ts (Event.ts event) then ret false
          else if match Event.text event with
                  | Some text => Js.includes (Js.toLowerCase text) "(aside)"
                  | None => false
                  end
          then ret false
          else
            response <-
              conversations_replies slackBotToken (Event.channel event)
                thread_ts 50 ;;
            let messages :=
              match response with
              | Some l => l
              | None => []
              end in
            if existsb (mentionsBot slackBotUserId) messages then ret true
            else
              if match nth_error messages 0 with
                 | Some first => isUser slackBotUserId (Reply.user first)
                 | None => false
                 end
              then
                ret (negb
                       match nth_error messages 1 with
                       | Some second =>
                           match Reply.text second with
                           | Some text => Js.matchesMention text
                           | None => false
                           end
                       | None => false
                       end)
              else ret false
      | _, _, _ => ret false
      end
  end.

(** Lines 51 to 79 of [handleMessage], named for the proofs: what happens
    once the message row [agentThread] / [text] has been created. *)
Definition routeMessage (event : Event.t) (mailboxInfo : SlackMailboxInfo)
    (agentThread : AgentThread.t) (text : string) : M unit :=
  match
    Js.nullish
      (find (isMailboxId (AgentThread.mailboxId agentThread))
         (mailboxes mailboxInfo))
      (currentMailbox mailboxInfo)
  with
  | None => askWhichMailbox event (mailboxes mailboxInfo)
  | Some mailbox =>
      let mentionedMailbox :=
        findMentionedMailbox text (mailboxes mailboxInfo) mailbox in
      (if negb (Js.truthyNum (AgentThread.mailboxId agentThread))
          || Js.isSome mentionedMailbox
       then
         let mailboxToUse :=
           match mentionedMailbox with
           | Some m => m
           | None => mailbox
           end in
         updateAgentThread (AgentThread.id agentThread)
           (Mailbox.id mailboxToUse) ;;
         if Js.isSome mentionedMailbox
            && (1 <? List.length (mailboxes mailboxInfo))%nat
         then
           client <- assertDefined (Mailbox.slackBotToken mailboxToUse) ;;
           postMailboxSwitchMessage client (Event.channel event)
             (threadRoot event) (Mailbox.name mailboxToUse)
         else ret tt
       else ret tt) ;;
      client <- assertDefined (Mailbox.slackBotToken mailbox) ;;
      statusMessageTs <-
        postThinkingMessage client (Event.channel event)
          (threadRoot event) ;;
      triggerEvent "slack/agent.message"
        {| slackUserId := Event.user event;
           statusMessageTs := statusMessageTs;
           agentThreadId := AgentThread.id agentThread |}
  end.

(** Deliveries handled one after the other; how each one completes does
    not matter to the next. *)
Fixpoint deliverAll (deliveries : list (Event.t * SlackMailboxInfo))
    (w : World) : World :=
  match deliveries with
  | [] => w
  | (event, mailboxInfo) :: rest =>
      deliverAll rest (world (handleMessage event mailboxInfo w))
  end.

End Handlers.

(** ** Notions used by the statements *)

(** [sub] occurs in [s]. *)
Definition contains (s sub : string) : Prop :=
  exists pre post, s = (pre ++ sub ++ post)%string.

(** [s] has a mention-style token: ["<@"], one or more characters other
    than [">"], then [">"]. *)
Definition hasMentionToken (s : string) : Prop :=
  exists pre mid post,
    s = (pre ++ "<@" ++ mid ++ ">" ++ post)%string
    /\ mid <> "" /\ ~ contains mid ">".

(** The event carries a bot marker. *)
Definition hasBotMarker (event : Event.t) : Prop :=
  (exists b, Event.bot_id event = Some b /\ b <> "")
  \/ (exists p, Event.bot_profile event = Some p).

(** The event carries text. *)
Definition hasText (event : Event.t) : Prop :=
  exists text, Event.text event = Some text /\ text <> "".

(** The Thread an event belongs to: the first row for its channel and
    thread root, or the row that is created for it. *)
Definition threadFor (w : World) (event : Event.t) : AgentThread.t :=
  match
    find (threadMatches (Event.channel event) (threadRoot event))
      (agentThreads w)
  with
  | Some t => t
  | None =>
      AgentThread.mk (nextThreadId w) (Event.channel event)
        (threadRoot event) None
  end.

(** A Message row for the event's Thread and timestamp exists already. *)
Definition alreadyRecorded (w : World) (event : Event.t) : bool :=
  existsb (conflicts (AgentThread.id (threadFor w event)) (Event.ts event))
    (agentMessages w).

(** The mailbox a Thread is routed to before any mention is looked at:
    its bound mailbox if that is in the list, else the selected one. *)
Definition effectiveMailbox (mailboxInfo : SlackMailboxInfo)
    (t : AgentThread.t) : option Mailbox.t :=
  Js.nullish
    (find (isMailboxId (AgentThread.mailboxId t)) (mailboxes mailboxInfo))
    (currentMailbox mailboxInfo).

Definition switchNotice (mailboxName : string) : string :=
  ("_Switched to the " ++ mailboxName ++ " mailbox_")%string.

Definition whichMailboxPrompt (WHICH_MAILBOX_MESSAGE : string)
    (mailboxes : list Mailbox.t) : string :=
  (WHICH_MAILBOX_MESSAGE ++ " ("
   ++ String.concat "/" (map Mailbox.name mailboxes) ++ ")")%string.

(** [id] is the primary key of [agentThreads], drawn from the identity
    sequence. *)
Definition primaryKey (w : World) : Prop :=
  NoDup (map AgentThread.id (agentThreads w))
  /\ Forall (fun t => AgentThread.id t < nextThreadId w) (agentThreads w).

(** What a Thread is looked up by. *)
Definition rootKey (t : AgentThread.t) : string * string :=
  (AgentThread.slackChannel t, AgentThread.threadTs t).

(** No two Threads for the same channel and thread root. *)
Definition uniqueRoots (w : World) : Prop :=
  NoDup (map rootKey (agentThreads w)).

Definition withMailbox (t : AgentThread.t) (m : Mailbox.t) : AgentThread.t :=
  AgentThread.mk (AgentThread.id t) (AgentThread.slackChannel t)
    (AgentThread.threadTs t) (Some (Mailbox.id m)).

(** What one delivery may do to the row of a Thread.  A mailbox id counts
    as set when the code's own test [agentThread.mailboxId] holds of it;
    [toLowerCase] is the case mapping of the runtime. *)
Inductive bindingStep (toLowerCase : string -> string) (event : Event.t)
    (mailboxInfo : SlackMailboxInfo)
    : AgentThread.t -> AgentThread.t -> Prop :=
| Unchanged (t : AgentThread.t) : bindingStep toLowerCase event mailboxInfo t t
| FirstBinding (t : AgentThread.t) (m : Mailbox.t) :
    Js.truthyNum (AgentThread.mailboxId t) = false ->
    In m (mailboxes mailboxInfo) \/ currentMailbox mailboxInfo = Some m ->
    bindingStep toLowerCase event mailboxInfo t (withMailbox t m)
| Rebinding (t : AgentThread.t) (text : string) (current m : Mailbox.t) :
    Js.truthyNum (AgentThread.mailboxId t) = true ->
    Event.text event = Some text ->
    effectiveMailbox mailboxInfo t = Some current ->
    (1 < List.length (mailboxes mailboxInfo))%nat ->
    In m (mailboxes mailboxInfo) ->
    Mailbox.id m <> Mailbox.id current ->
    contains (toLowerCase text) (toLowerCase (Mailbox.name m)) ->
    bindingStep toLowerCase event mailboxInfo t (withMailbox t m).

(** [again] delivers the message of [first] once more: same channel, same
    thread root, same message timestamp, and it carries nothing that
    [first] lacked. *)
Definition redelivery (first again : Event.t) : Prop :=
  Event.channel again = Event.channel first
  /\ threadRoot again = threadRoot first
  /\ Event.ts again = Event.ts first
  /\ (hasBotMarker first -> hasBotMarker again)
  /\ (hasText again -> hasText first).

(** The guards of [isAgentThread] let the event through, with the given
    credential, bot identity and thread timestamp. *)
Definition passesGuards (event : Event.t) (mailboxInfo : SlackMailboxInfo)
    (token botUserId thread_ts : string) : Prop :=
  (exists mailbox,
      nth_error (mailboxes mailboxInfo) 0 = Some mailbox
      /\ Mailbox.slackBotToken mailbox = Some token
      /\ Mailbox.slackBotUserId mailbox = Some botUserId)
  /\ token <> "" /\ botUserId <> ""
  /\ Event.thread_ts event = Some thread_ts
  /\ thread_ts <> "" /\ thread_ts <> Event.ts event
  /\ (forall text,
         Event.text event = Some text ->
         ~ contains (Js.toLowerCase text) "(aside)").

(** A fetched message that is not the bot's and mentions the bot. *)
Definition mentionedBy (botUserId : string) (message : Reply.t) : Prop :=
  Reply.user message <> Some botUserId
  /\ exists text,
       Reply.text message = Some text
       /\ contains text ("<@" ++ botUserId ++ ">")%string.

(** The world once the Thread of the event has been fetched or created
    (lines 14 to 27). *)
Definition resolved (w : World) (event : Event.t) : World :=
  match
    find (threadMatches (Event.channel event) (threadRoot event))
      (agentThreads w)
  with
  | Some _ =>
      logged (DbFindFirstThread (Event.channel event) (threadRoot event)) w
  | None =>
      {| agentThreads := agentThreads w ++ [threadFor w event];
         agentMessages := agentMessages w;
         nextThreadId := nextThreadId w + 1;
         nextMessageId := nextMessageId w;
         log :=
           (log w
            ++ [DbFindFirstThread (Event.channel event) (threadRoot event)])
           ++ [DbInsertThread (Event.channel event) (threadRoot event)] |}
  end.

(** The insert of the Message row of the event (lines 31 to 41). *)
Definition insertOp (w : World) (event : Event.t) (text : string) : Op :=
  DbInsertMessage (AgentThread.id (threadFor w event)) "user" text
    (Event.channel event) (Event.ts event).

(** The world once the Message row of the event has been created. *)
Definition recorded (w : World) (event : Event.t) (text : string) : World :=
  let w' := resolved w event in
  {| agentThreads := agentThreads w';
     agentMessages :=
       agentMessages w'
       ++ [AgentMessage.mk (nextMessageId w')
             (AgentThread.id (threadFor w event)) "user" text
             (Event.channel event) (Event.ts event)];
     nextThreadId := nextThreadId w';
     nextMessageId := nextMessageId w' + 1;
     log := log w' ++ [insertOp w event text] |}.

(** How an awaited promise completes. *)
Definition settle {A : Type} (p : Promise A) : Completion A :=
  match p with
  | Resolved a => Normal a
  | Rejected reason => Thrown (Rejection reason)
  end.

(** [post m w Q]: running [m] from [w] completes in a way, and in a world,
    that satisfy [Q]. *)
Definition post {A : Type} (m : M A) (w : World)
    (Q : Completion A -> World -> Prop) : Prop :=
  Q (result (m w)) (world (m w)).

(** The Thread of the event is in the table. *)
Definition threadIn (w : World) (event : Event.t) : Prop :=
  exists t,
    find (threadMatches (Event.channel event) (threadRoot event))
      (agentThreads w) = Some t.

(** The Thread of the event is in the table, with a Message row for the
    timestamp of the event. *)
Definition recordedIn (w : World) (event : Event.t) : Prop :=
  exists t,
    find (threadMatches (Event.channel event) (threadRoot event))
      (agentThreads w) = Some t
    /\ existsb (conflicts (AgentThread.id t) (Event.ts event))
         (agentMessages w) = true.

(** [w'] keeps what [w] knows: a lookup that found a Thread finds a
    Thread with the same id, and a key that conflicts still conflicts. *)
Definition stable (w w' : World) : Prop :=
  (forall slackChannel threadTs t,
      find (threadMatches slackChannel threadTs) (agentThreads w) = Some t ->
      exists t',
        find (threadMatches slackChannel threadTs) (agentThreads w')
        = Some t'
        /\ AgentThread.id t' = AgentThread.id t)
  /\ (forall agentThreadId messageTs,
         existsb (conflicts agentThreadId messageTs) (agentMessages w)
         = true ->
         existsb (conflicts agentThreadId messageTs) (agentMessages w')
         = true).

(** The response to a post carries no timestamp. *)
Definition noTimestamp (p : Promise (option string)) : Prop :=
  p = Resolved None \/ p = Resolved (Some "").

(** The post of the interim placeholder message. *)
Definition placeholder (token : string) (event : Event.t) : Op :=
  ChatPostMessage token (Event.channel event) (threadRoot event)
    "_Thinking..._".

(** The thread was started by the bot. *)
Definition startedByBot (botUserId : string) (messages : list Reply.t)
    : Prop :=
  exists first,
    nth_error messages 0 = Some first
    /\ Reply.user first = Some botUserId.

(** The second message has no mention-style token: there is no second
    message, or it has no text, or its text has no such token. *)
Definition secondHasNoToken (messages : list Reply.t) : Prop :=
  forall second text,
    nth_error messages 1 = Some second ->
    Reply.text second = Some text ->
    ~ hasMentionToken text.

(** The first mailbox is missing, or lacks a credential or a bot
    identity. *)
Definition lacksCredentials (mailboxInfo : SlackMailboxInfo) : Prop :=
  nth_error (mailboxes mailboxInfo) 0 = None
  \/ exists mailbox,
       nth_error (mailboxes mailboxInfo) 0 = Some mailbox
       /\ (Mailbox.slackBotToken mailbox = None
           \/ Mailbox.slackBotUserId mailbox = None).

(** The event is not a reply within an existing thread. *)
Definition notThreadReply (event : Event.t) : Prop :=
  Event.thread_ts event = None
  \/ Event.thread_ts event = Some (Event.ts event).

(** The text has ["(aside)"] in some letter case. *)
Definition markedAside (event : Event.t) : Prop :=
  exists text mid,
    Event.text event = Some text
    /\ contains text mid /\ Js.toLowerCase mid = "(aside)".

(** The decision of [isAgentThread] over the fetched messages, lines 127
    to 136, named for the proofs. *)
Definition answerFor (botUserId : string) (messages : list Reply.t) : bool :=
  if existsb (mentionsBot botUserId) messages then true
  else
    if match nth_error messages 0 with
       | Some first => isUser botUserId (Reply.user first)
       | None => false
       end
    then
      negb
        match nth_error messages 1 with
        | Some second =>
            match Reply.text second with
            | Some text => Js.matchesMention text
            | None => false
            end
        | None => false
        end
    else false.

(** ** Sample data *)

Module Sample.

(** An API that answers every post with a timestamp, and every fetch with
    the given thread. *)
Definition api (thread : list Reply.t) : SlackApi :=
  {| postMessage := fun _ _ _ _ _ => Resolved (Some "1700000200.000100");
     replies := fun _ _ _ _ _ => Resolved (Some thread) |}.

(** An API whose responses to posts carry no timestamp. *)
Definition mute : SlackApi :=
  {| postMessage := fun _ _ _ _ _ => Resolved None;
     replies := fun _ _ _ _ _ => Resolved None |}.

Definition prompt : string := "Which mailbox is this about?".

Definition support : Mailbox.t :=
  Mailbox.mk 1 "Support" (Some "xoxb-support") (Some "U0SUPPORT").

Definition billing : Mailbox.t :=
  Mailbox.mk 2 "Billing" (Some "xoxb-billing") (Some "U0BILLING").

Definition oneMailbox : SlackMailboxInfo :=
  {| mailboxes := [support]; currentMailbox := Some support |}.

Definition twoMailboxes : SlackMailboxInfo :=
  {| mailboxes := [support; billing]; currentMailbox := Some support |}.

Definition noneSelected : SlackMailboxInfo :=
  {| mailboxes := [support; billing]; currentMailbox := None |}.

Definition noMailbox : SlackMailboxInfo :=
  {| mailboxes := []; currentMailbox := None |}.

Definition empty : World :=
  {| agentThreads := [];
     agentMessages := [];
     nextThreadId := 1;
     nextMessageId := 1;
     log := [] |}.

(** A Thread bound to the Support mailbox, with its first message. *)
Definition bound : World :=
  {| agentThreads := [AgentThread.mk 1 "C1" "1700000100.000100" (Some 1)];
     agentMessages :=
       [AgentMessage.mk 1 1 "user" "hello" "C1" "1700000100.000100"];
     nextThreadId := 2;
     nextMessageId := 2;
     log := [] |}.

(** A message that starts a thread. *)
Definition opening (text : string) : Event.t :=
  Event.mk "C1" "1700000100.000100" None (Some text) (Some "U1") None None.

(** A reply in that thread. *)
Definition reply (text : string) : Event.t :=
  Event.mk "C1" "1700000150.000100" (Some "1700000100.000100") (Some text)
    (Some "U1") None None.

(** A message posted by a bot. *)
Definition fromBot : Event.t :=
  Event.mk "C1" "1700000100.000100" None (Some "hello") None (Some "B1")
    None.

End Sample.

(** ** Notions used by the further properties *)

(** ** Further notions used by the statements *)

(** The text names the mailbox, and the mailbox is not the current one:
    the test of the loop of [findMentionedMailbox], as a proposition. *)
Definition mentions (toLowerCase : string -> string) (text : string)
    (current m : Mailbox.t) : Prop :=
  Mailbox.id m <> Mailbox.id current
  /\ contains (toLowerCase text) (toLowerCase (Mailbox.name m)).

(** What identifies a Thread row: everything but its mailbox. *)
Definition threadKey (t : AgentThread.t) : Z * string * string :=
  (AgentThread.id t, AgentThread.slackChannel t, AgentThread.threadTs t).

(** What a Message conflicts by. *)
Definition messageKey (m : AgentMessage.t) : Z * string :=
  (AgentMessage.agentThreadId m, AgentMessage.messageTs m).

(** No two Messages for the same Thread and timestamp. *)
Definition uniqueMessages (w : World) : Prop :=
  NoDup (map messageKey (agentMessages w)).

(** The event is routed: it went past the bot check, carries text, and its
    Message row is new. *)
Definition routed (w : World) (event : Event.t) (text : string) : Prop :=
  ~ hasBotMarker event
  /\ Event.text event = Some text /\ text <> ""
  /\ alreadyRecorded w event = false.

(** The mailbox id the Thread of a routed message ends up with (lines 57
    to 61): that of the mentioned mailbox if there is one, else its own if
    it has one, else that of the effective mailbox. *)
Definition boundTo (toLowerCase : string -> string)
    (mailboxInfo : SlackMailboxInfo) (t : AgentThread.t)
    (text : string) (current : Mailbox.t) : option Z :=
  match findMentionedMailbox toLowerCase text (mailboxes mailboxInfo)
    current with
  | Some m => Some (Mailbox.id m)
  | None =>
      if Js.truthyNum (AgentThread.mailboxId t)
      then AgentThread.mailboxId t
      else Some (Mailbox.id current)
  end.

(** * The assistant-thread handler *)

(** [handleAssistantThreadMessage] talks to Slack only.  Its second call,
    [assistant.threads.setSuggestedPrompts], is not one of the calls of the
    message handler, so its runs are kept in a log of their own. *)
Module Assistant.

(** [event.assistant_thread] of an [AssistantThreadStartedEvent]. *)
Record Thread : Type :=
  { channel_id : string;
    thread_ts : string }.

Record Prompt : Type :=
  { title : string;
    message : string }.

Inductive Call : Type :=
| ChatPostMessage (token channel thread_ts text : string)
| SetSuggestedPrompts (token channel_id thread_ts : string)
    (prompts : list Prompt).

(** The two methods of the Web API the handler calls.  Each answer may
    depend on the calls made so far; neither response is looked at. *)
Record Api : Type :=
  { postMessage :
      list Call -> string -> string -> string -> string -> Promise unit;
    setSuggestedPrompts :
      list Call -> string -> string -> string -> list Prompt ->
      Promise unit }.

Definition Run (A : Type) : Type := list Call -> Completion A * list Call.

Definition andThen {A B : Type} (m : Run A) (k : A -> Run B) : Run B :=
  fun calls =>
    match m calls with
    | (Normal a, calls') => k a calls'
    | (Thrown e, calls') => (Thrown e, calls')
    end.

(** [assertDefined] of [components/utils/assert], as the message handler
    has it. *)
Definition assertDefined {A : Type} (value : option A) : Run A :=
  fun calls =>
    match value with
    | Some v => (Normal v, calls)
    | None => (Thrown NotDefined, calls)
    end.

Definition awaited {A : Type} (p : Promise A) (call : Call) : Run A :=
  fun calls =>
    match p with
    | Resolved a => (Normal a, calls ++ [call])%list
    | Rejected reason => (Thrown (Rejection reason), calls ++ [call])%list
    end.

Section Handler.

Variable slack : Api.

Definition chat_postMessage (client channel thread_ts text : string)
    : Run unit :=
  fun calls =>
    awaited (postMessage slack calls client channel thread_ts text)
      (ChatPostMessage client channel thread_ts text) calls.

Definition assistant_threads_setSuggestedPrompts
    (client channel_id thread_ts : string) (prompts : list Prompt)
    : Run unit :=
  fun calls =>
    awaited (setSuggestedPrompts slack calls client channel_id thread_ts
               prompts)
      (SetSuggestedPrompts client channel_id thread_ts prompts) calls.

Definition greeting : string :=
  "Hello, I'm an AI assistant to help you work with tickets in Helper!".

Definition suggestedPrompts : list Prompt :=
  [ {| title := "Count open tickets";
       message := "How many open tickets are there?" |};
    {| title := "Search tickets";
       message := "Give me 5 tickets about payments" |};
    {| title := "Check assignees";
       message := "How many tickets are assigned to users other than me?" |} ].

Definition handleAssistantThreadMessage (assistant_thread : Thread)
    (mailboxInfo : SlackMailboxInfo) : Run unit :=
  andThen
    (assertDefined
       match nth_error (mailboxes mailboxInfo) 0 with
       | Some m => Mailbox.slackBotToken m
       | None => None
       end)
    (fun client =>
       andThen
         (chat_postMessage client (channel_id assistant_thread)
            (thread_ts assistant_thread) greeting)
         (fun _ =>
            assistant_threads_setSuggestedPrompts client
              (channel_id assistant_thread) (thread_ts assistant_thread)
              suggestedPrompts)).

End Handler.

(** The calls a run adds to the log. *)
Definition added (calls : list Call) (r : Completion unit * list Call)
    : list Call :=
  skipn (List.length calls) (snd r).

(** The credential of the first listed mailbox. *)
Definition firstCredential (mailboxInfo : SlackMailboxInfo)
    : option string :=
  match mailboxes mailboxInfo with
  | m :: _ => Mailbox.slackBotToken m
  | [] => None
  end.

(** An API that accepts every call, and one that refuses every greeting. *)
Definition accepting : Api :=
  {| postMessage := fun _ _ _ _ _ => Resolved tt;
     setSuggestedPrompts := fun _ _ _ _ _ => Resolved tt |}.

Definition refusing : Api :=
  {| postMessage := fun _ _ _ _ _ => Rejected "channel_not_found";
     setSuggestedPrompts := fun _ _ _ _ _ => Resolved tt |}.

Definition started : Thread :=
  {| channel_id := "D1"; thread_ts := "1700000300.000100" |}.

End Assistant.

(** * Facts about the string operations *)

Section JsStringFacts.

Import Js.

Lemma toLowerCase_app (a b : string) :
  toLowerCase (a ++ b) = toLowerCase a ++ toLowerCase b.
Proof.
  induction a as [|c a IH]; simpl; [reflexivity | now rewrite IH].
Qed.

Lemma startsWith_app (p r : string) : startsWith (p ++ r) p = true.
Proof.
  induction p as [|c p IH]; simpl.
  - now destruct r.
  - now rewrite Ascii.eqb_refl.
Qed.

Lemma startsWith_inv (s p : string) :
  startsWith s p = true -> exists r, s = p ++ r.
Proof.
  revert s; induction p as [|c p IH]; intros s H.
  - now exists s.
  - destruct s as [|d s]; simpl in H; [discriminate|].
    apply andb_true_iff in H as [Hc Hs].
    apply Ascii.eqb_eq in Hc; subst d.
    destruct (IH _ Hs) as [r ->]. now exists r.
Qed.

Lemma includes_startsWith (s sub : string) :
  startsWith s sub = true -> includes s sub = true.
Proof. intros H. destruct s; cbn [includes]; now rewrite H. Qed.

Lemma includes_app (pre sub post : string) :
  includes (pre ++ sub ++ post) sub = true.
Proof.
  induction pre as [|c pre IH].
  - change ("" ++ sub ++ post) with (sub ++ post).
    apply includes_startsWith, startsWith_app.
  - simpl. rewrite IH. apply orb_true_r.
Qed.

Lemma includes_inv (s sub : string) :
  includes s sub = true -> exists pre post, s = pre ++ sub ++ post.
Proof.
  induction s as [|c s IH]; cbn [includes]; intros H.
  - rewrite orb_false_r in H. apply startsWith_inv in H as [r ->].
    now exists "", r.
  - apply orb_true_iff in H as [H|H].
    + apply startsWith_inv in H as [r ->]. now exists "", r.
    + destruct (IH H) as (pre & post & ->). now exists (String c pre), post.
Qed.

Lemma includes_contains (s sub : string) :
  includes s sub = true <-> contains s sub.
Proof.
  split.
  - apply includes_inv.
  - intros (pre & post & ->). apply includes_app.
Qed.

Lemma includes_false (s sub : string) :
  includes s sub = false <-> ~ contains s sub.
Proof.
  rewrite <- includes_contains. symmetry. apply not_true_iff_false.
Qed.

Lemma string_app_assoc (a b c : string) : (a ++ b) ++ c = a ++ b ++ c.
Proof.
  induction a as [|x a IH]; simpl; [reflexivity | now rewrite IH].
Qed.

Lemma last_char_inj (x y : string) (c d : ascii) :
  x ++ String c "" = y ++ String d "" -> c = d.
Proof.
  revert y; induction x as [|a x IH]; intros [|b y] H; simpl in H.
  - now injection H.
  - injection H as _ H. destruct y; discriminate.
  - injection H as _ H. destruct x; discriminate.
  - injection H as _ H. now apply IH in H.
Qed.

Lemma contains_tail (c : ascii) (s sub : string) :
  contains s sub -> contains (String c s) sub.
Proof. intros (pre & post & ->). now exists (String c pre), post. Qed.

Lemma contains_head (c : ascii) (s : string) :
  contains (String c s) (String c "").
Proof. now exists "", s. Qed.

(** [mentionTail] finds the first [">"] and wants a character before it. *)
Lemma mentionTail_inv (seen : bool) (s : string) :
  mentionTail seen s = true ->
  exists mid post,
    s = mid ++ ">" ++ post /\ ~ contains mid ">"
    /\ (seen = false -> mid <> "").
Proof.
  revert seen; induction s as [|c s IH]; intros seen H; simpl in H.
  - discriminate.
  - destruct (Ascii.eqb c ">") eqn:E.
    + apply Ascii.eqb_eq in E; subst c seen.
      exists "", s. repeat split; [|congruence].
      intros (pre & post & Hc). destruct pre; discriminate.
    + destruct (IH _ H) as (mid & post & -> & Hmid & _).
      exists (String c mid), post. repeat split; [|discriminate].
      intros (pre & post' & Hc). destruct pre as [|p pre]; simpl in Hc.
      * injection Hc as -> _. now rewrite Ascii.eqb_refl in E.
      * injection Hc as _ Hc. apply Hmid. now exists pre, post'.
Qed.

Lemma mentionTail_app (seen : bool) (mid post : string) :
  ~ contains mid ">" -> (seen = false -> mid <> "") ->
  mentionTail seen (mid ++ ">" ++ post) = true.
Proof.
  revert seen; induction mid as [|c mid IH]; intros seen Hmid Hseen; simpl.
  - destruct seen; [reflexivity | now contradiction Hseen].
  - destruct (Ascii.eqb c ">") eqn:E.
    + apply Ascii.eqb_eq in E; subst c.
      contradiction Hmid. apply contains_head.
    + apply IH; [|discriminate].
      intros H. apply Hmid. now apply contains_tail.
Qed.

Lemma matchesMention_cons (c : ascii) (s : string) :
  matchesMention s = true -> matchesMention (String c s) = true.
Proof.
  destruct s as [|d s]; [discriminate|]. intros H.
  change (matchesMention (String c (String d s)))
    with ((Ascii.eqb c "<" && Ascii.eqb d "@" && mentionTail false s)
          || matchesMention (String d s)).
  rewrite H. apply orb_true_r.
Qed.

(** The matcher decides the pattern [<@[^>]+>]. *)
Lemma matchesMention_spec (s : string) :
  matchesMention s = true <-> hasMentionToken s.
Proof.
  split.
  - induction s as [|c s IH]; cbn [matchesMention]; [discriminate|].
    destruct s as [|d s']; [discriminate|].
    intros H. apply orb_true_iff in H as [H|H].
    + apply andb_true_iff in H as [H Ht].
      apply andb_true_iff in H as [Hc Hd].
      apply Ascii.eqb_eq in Hc, Hd; subst c d.
      destruct (mentionTail_inv _ _ Ht) as (mid & post & -> & Hmid & Hne).
      exists "", mid, post. auto.
    + destruct (IH H) as (pre & mid & post & E & Hne & Hmid).
      exists (String c pre), mid, post. simpl. rewrite E. auto.
  - intros (pre & mid & post & -> & Hne & Hmid).
    induction pre as [|c pre IH].
    + change ("" ++ "<@" ++ mid ++ ">" ++ post)
        with (String "<" (String "@" (mid ++ ">" ++ post))).
      cbn [matchesMention]. rewrite mentionTail_app; auto.
    + cbn [append]. now apply matchesMention_cons.
Qed.

Lemma matchesMention_false (s : string) :
  matchesMention s = false <-> ~ hasMentionToken s.
Proof.
  rewrite <- matchesMention_spec. symmetry. apply not_true_iff_false.
Qed.

(** Lower-casing sees through the letter case of an occurrence. *)
Lemma contains_toLowerCase (s mid sub : string) :
  contains s mid -> toLowerCase mid = sub -> contains (toLowerCase s) sub.
Proof.
  intros (pre & post & ->) <-.
  exists (toLowerCase pre), (toLowerCase post).
  now rewrite !toLowerCase_app.
Qed.

Lemma truthy_true (o : option string) :
  truthy o = true <-> exists s, o = Some s /\ s <> "".
Proof.
  split.
  - destruct o as [[|c s]|]; try discriminate. intros _.
    exists (String c s). now split.
  - intros (s & -> & Hs). destruct s; [contradiction | reflexivity].
Qed.

End JsStringFacts.

(** * [isAgentThread] *)

Section IsAgentThread.

Variable slack : SlackApi.

Lemma isUser_spec (botUserId : string) (user : option string) :
  isUser botUserId user = true <-> user = Some botUserId.
Proof.
  destruct user as [u|]; simpl.
  - rewrite String.eqb_eq. split; congruence.
  - split; discriminate.
Qed.

Lemma mentionsBot_spec (botUserId : string) (message : Reply.t) :
  mentionsBot botUserId message = true <-> mentionedBy botUserId message.
Proof.
  unfold mentionsBot, mentionedBy.
  rewrite andb_true_iff, negb_true_iff, <- not_true_iff_false, isUser_spec.
  apply and_iff_compat_l.
  destruct (Reply.text message) as [text|].
  - rewrite includes_contains. split.
    + intros H. now exists text.
    + intros (t & Ht & H). now injection Ht as ->.
  - split; [discriminate | intros (t & Ht & _); discriminate].
Qed.

Lemma existsb_mentionsBot (botUserId : string) (messages : list Reply.t) :
  existsb (mentionsBot botUserId) messages = true
  <-> exists m, In m messages /\ mentionedBy botUserId m.
Proof.
  rewrite existsb_exists.
  split; intros (m & Hin & H); exists m; split; auto;
    now apply mentionsBot_spec.
Qed.

Lemma nonEmpty_Some (s : string) : s <> "" -> nonEmpty (Some s) = Some s.
Proof. destruct s; [contradiction | reflexivity]. Qed.

(** Past the guards, the handler fetches the replies once, with limit 50,
    and answers from them. *)
Lemma isAgentThread_fetches (event : Event.t) (mailboxInfo : SlackMailboxInfo)
    (w : World) (token botUserId thread_ts : string)
    (response : option (list Reply.t)) :
  passesGuards event mailboxInfo token botUserId thread_ts ->
  replies slack (log w) token (Event.channel event) thread_ts 50
  = Resolved response ->
  isAgentThread slack event mailboxInfo w
  = (Normal (answerFor botUserId
               match response with Some l => l | None => [] end),
     logged (ConversationsReplies token (Event.channel event) thread_ts 50)
       w).
Proof.
  intros ((mailbox & Hfirst & Htoken & Hbot) & Hnt & Hnb & Hts & Hne & Hneq
          & Haside) Hreplies.
  unfold isAgentThread. rewrite Hfirst, Htoken, Hbot, Hts.
  rewrite !nonEmpty_Some by assumption.
  apply String.eqb_neq in Hneq. rewrite Hneq.
  assert (Hno : match Event.text event with
                | Some text => Js.includes (Js.toLowerCase text) "(aside)"
                | None => false
                end = false).
  { destruct (Event.text event) as [text|]; [|reflexivity].
    apply includes_false. now apply Haside. }
  rewrite Hno.
  unfold bind, conversations_replies. rewrite Hreplies. cbn [await ret].
  unfold answerFor.
  destruct (existsb _ _); [reflexivity|].
  destruct (match nth_error _ 0 with Some _ => _ | None => _ end);
    reflexivity.
Qed.

Lemma nonEmpty_inv (o : option string) (s : string) :
  nonEmpty o = Some s -> o = Some s /\ s <> "".
Proof.
  destruct o as [[|c r]|]; try discriminate.
  intros H; injection H as <-. now split.
Qed.

Lemma answerFor_mentioned (botUserId : string) (messages : list Reply.t) :
  (exists m, In m messages /\ mentionedBy botUserId m) ->
  answerFor botUserId messages = true.
Proof.
  intros H. apply existsb_mentionsBot in H.
  unfold answerFor. now rewrite H.
Qed.

Lemma answerFor_fallback (botUserId : string) (messages : list Reply.t) :
  ~ (exists m, In m messages /\ mentionedBy botUserId m) ->
  answerFor botUserId messages = true
  <-> startedByBot botUserId messages /\ secondHasNoToken messages.
Proof.
  intros H. rewrite <- existsb_mentionsBot in H.
  apply not_true_iff_false in H.
  unfold answerFor, startedByBot, secondHasNoToken. rewrite H.
  destruct (nth_error messages 0) as [first|] eqn:E0.
  - destruct (isUser botUserId (Reply.user first)) eqn:Eu.
    + apply isUser_spec in Eu. split.
      * intros Hneg. split; [now exists first|].
        intros second text E1 Et Htok.
        rewrite E1, Et in Hneg. apply matchesMention_spec in Htok.
        rewrite Htok in Hneg. discriminate.
      * intros [_ Hsec].
        destruct (nth_error messages 1) as [second|]; [|reflexivity].
        destruct (Reply.text second) as [text|] eqn:Et; [|reflexivity].
        apply negb_true_iff, matchesMention_false. now apply (Hsec second).
    + split; [discriminate|].
      intros [(f & Ef & Hu) _]. injection Ef as <-.
      apply isUser_spec in Hu. congruence.
  - split; [discriminate|].
    intros [(f & Ef & _) _]. discriminate.
Qed.

(** C5: past the guards, [isAgentThread] makes one [conversations.replies]
    request, with limit 50, and nothing else.  It answers true if some
    fetched message that is not the bot's contains the bot-mention token
    [<@botUserId>].  When there is no such message, it answers true exactly
    when the first fetched message is the bot's and the second message has
    no mention-style token, and false otherwise. *)
Theorem isAgentThread_answer (event : Event.t) (mailboxInfo : SlackMailboxInfo)
    (w : World) (token botUserId thread_ts : string)
    (response : option (list Reply.t)) :
  passesGuards event mailboxInfo token botUserId thread_ts ->
  replies slack (log w) token (Event.channel event) thread_ts 50
  = Resolved response ->
  let messages := match response with Some l => l | None => [] end in
  exists answer : bool,
    isAgentThread slack event mailboxInfo w
    = (Normal answer,
       logged (ConversationsReplies token (Event.channel event) thread_ts 50)
         w)
    /\ ((exists m, In m messages /\ mentionedBy botUserId m) ->
        answer = true)
    /\ (~ (exists m, In m messages /\ mentionedBy botUserId m) ->
        (answer = true
         <-> startedByBot botUserId messages /\ secondHasNoToken messages)).
Proof.
  intros Hguards Hreplies messages.
  exists (answerFor botUserId messages). split; [|split].
  - now apply isAgentThread_fetches.
  - apply answerFor_mentioned.
  - apply answerFor_fallback.
Qed.

(** C6: [isAgentThread] answers false, without any call, whenever the
    first mailbox lacks a credential or a bot identity, or the event is
    not a reply within a thread (no thread timestamp, or one equal to its
    own timestamp), or its text contains ["(aside)"] in any letter case.
    The Slack API is never asked, so what the thread mentions plays no
    part. *)
Theorem isAgentThread_guards (event : Event.t) (mailboxInfo : SlackMailboxInfo)
    (w : World) :
  lacksCredentials mailboxInfo \/ notThreadReply event \/ markedAside event ->
  isAgentThread slack event mailboxInfo w = (Normal false, w).
Proof.
  intros H. unfold isAgentThread.
  destruct (nth_error (mailboxes mailboxInfo) 0) as [mailbox|] eqn:E0;
    [|reflexivity].
  destruct (nonEmpty (Mailbox.slackBotToken mailbox)) as [token|] eqn:Et;
    [|reflexivity].
  destruct (nonEmpty (Mailbox.slackBotUserId mailbox)) as [bot|] eqn:Eb;
    [|reflexivity].
  destruct (nonEmpty (Event.thread_ts event)) as [thread_ts|] eqn:Ets;
    [|reflexivity].
  destruct (String.eqb thread_ts (Event.ts event)) eqn:Eeq; [reflexivity|].
  destruct (match Event.text event with Some _ => _ | None => _ end) eqn:Ea;
    [reflexivity|].
  exfalso.
  apply nonEmpty_inv in Et as [Et _], Eb as [Eb _], Ets as [Ets _].
  destruct H as [[H | (m & Hm & [Hn|Hn])] | [[H|H] | (text & mid & Ht & Hc & Hl)]];
    try congruence.
  - rewrite Ets in H. injection H as ->.
    now rewrite String.eqb_refl in Eeq.
  - rewrite Ht in Ea. apply includes_false in Ea. apply Ea.
    now apply (contains_toLowerCase text mid).
Qed.

(** C10: when the fetched thread is a single message, and that message is
    the bot's, [isAgentThread] answers true: a missing second message
    counts as a second message without a mention-style token. *)
Theorem isAgentThread_single_message (event : Event.t)
    (mailboxInfo : SlackMailboxInfo) (w : World)
    (token botUserId thread_ts : string) (first : Reply.t) :
  passesGuards event mailboxInfo token botUserId thread_ts ->
  replies slack (log w) token (Event.channel event) thread_ts 50
  = Resolved (Some [first]) ->
  Reply.user first = Some botUserId ->
  result (isAgentThread slack event mailboxInfo w) = Normal true.
Proof.
  intros Hguards Hreplies Hbot.
  rewrite (isAgentThread_fetches _ _ _ _ _ _ _ Hguards Hreplies).
  unfold result, answerFor, mentionsBot. cbn [fst existsb nth_error].
  apply isUser_spec in Hbot. now rewrite Hbot.
Qed.

End IsAgentThread.

(** * Postconditions of the handlers' steps *)

Section Postconditions.

Variable slack : SlackApi.

Lemma post_ret {A : Type} (a : A) (w : World)
    (Q : Completion A -> World -> Prop) :
  Q (Normal a) w -> post (ret a) w Q.
Proof. exact (fun H => H). Qed.

Lemma post_throw {A : Type} (e : Exn) (w : World)
    (Q : Completion A -> World -> Prop) :
  Q (Thrown e) w -> post (throw e) w Q.
Proof. exact (fun H => H). Qed.

Lemma post_bind {A B : Type} (m : M A) (k : A -> M B) (w : World)
    (Q : Completion B -> World -> Prop) :
  post m w (fun r w1 =>
              match r with
              | Normal a => post (k a) w1 Q
              | Thrown e => Q (Thrown e) w1
              end) ->
  post (bind m k) w Q.
Proof.
  unfold post, bind, result, world.
  destruct (m w) as [[a|e] w1]; auto.
Qed.

Lemma post_chat_postMessage (client channel thread_ts text : string)
    (w : World) (Q : Completion (option string) -> World -> Prop) :
  Q (settle (postMessage slack (log w) client channel thread_ts text))
    (logged (ChatPostMessage client channel thread_ts text) w) ->
  post (chat_postMessage slack client channel thread_ts text) w Q.
Proof.
  unfold post, chat_postMessage.
  now destruct (postMessage _ _ _ _ _ _).
Qed.

Lemma post_assertDefined {A : Type} (value : option A) (w : World)
    (Q : Completion A -> World -> Prop) :
  match value with
  | Some v => Q (Normal v) w
  | None => Q (Thrown NotDefined) w
  end ->
  post (assertDefined value) w Q.
Proof. now destruct value. Qed.

Lemma post_updateAgentThread (threadId mailboxId : Z) (w : World)
    (Q : Completion unit -> World -> Prop) :
  Q (Normal tt)
    {| agentThreads := map (setMailboxId threadId mailboxId) (agentThreads w);
       agentMessages := agentMessages w;
       nextThreadId := nextThreadId w;
       nextMessageId := nextMessageId w;
       log := log w ++ [DbUpdateThread threadId mailboxId] |} ->
  post (updateAgentThread threadId mailboxId) w Q.
Proof. exact (fun H => H). Qed.

Lemma post_triggerEvent (name : string) (payload : JobPayload) (w : World)
    (Q : Completion unit -> World -> Prop) :
  Q (Normal tt) (logged (TriggerEvent name payload) w) ->
  post (triggerEvent name payload) w Q.
Proof. exact (fun H => H). Qed.

Lemma post_run {A : Type} (m : M A) (w : World)
    (Q : Completion A -> World -> Prop) :
  post m w Q -> Q (result (m w)) (world (m w)).
Proof. exact (fun H => H). Qed.

End Postconditions.

(** One step of symbolic execution, from the outside in: every path of
    the handler ends in a goal about its completion and its world. *)
Ltac wp_step :=
  lazymatch goal with
  | |- post (bind _ _) _ _ => apply post_bind
  | |- post (ret _) _ _ => apply post_ret
  | |- post (throw _) _ _ => apply post_throw
  | |- post (chat_postMessage _ _ _ _ _) _ _ => apply post_chat_postMessage
  | |- post (assertDefined _) _ _ => apply post_assertDefined
  | |- post (updateAgentThread _ _) _ _ => apply post_updateAgentThread
  | |- post (triggerEvent _ _) _ _ => apply post_triggerEvent
  | |- post (postThinkingMessage _ _ _ _) _ _ => unfold postThinkingMessage
  | |- post (postMailboxSwitchMessage _ _ _ _ _) _ _ =>
      unfold postMailboxSwitchMessage
  | |- post (askWhichMailbox _ _ _ _) _ _ => unfold askWhichMailbox
  | |- post (if ?b then _ else _) _ _ => destruct b eqn:?
  | |- post (match ?x with _ => _ end) _ _ => destruct x eqn:?
  | |- match settle ?p with _ => _ end => destruct p eqn:?; cbn [settle]
  | |- match ?x with _ => _ end => destruct x eqn:?
  end.

Ltac wp := repeat wp_step.

(** * [handleMessage]: the first half, up to the Message row *)

Section Recording.

Variable slack : SlackApi.
Variable WHICH_MAILBOX_MESSAGE : string.
Variable toLowerCase : string -> string.

Local Abbreviation handle :=
  (handleMessage slack WHICH_MAILBOX_MESSAGE toLowerCase).
Local Abbreviation route :=
  (routeMessage slack WHICH_MAILBOX_MESSAGE toLowerCase).

Lemma hasBotMarker_test (event : Event.t) :
  Js.truthy (Event.bot_id event) || Js.isSome (Event.bot_profile event) = true
  <-> hasBotMarker event.
Proof.
  unfold hasBotMarker. rewrite orb_true_iff, truthy_true.
  apply or_iff_compat_l.
  destruct (Event.bot_profile event) as [p|]; simpl; split;
    try discriminate; try reflexivity.
  - intros _. now exists p.
  - intros (p & Hp). discriminate.
Qed.

Lemma hasText_test (event : Event.t) :
  Js.truthy (Event.text event) = true <-> hasText event.
Proof. apply truthy_true. Qed.

Lemma handleMessage_bot (event : Event.t) (mailboxInfo : SlackMailboxInfo)
    (w : World) :
  hasBotMarker event -> handle event mailboxInfo w = (Normal tt, w).
Proof.
  intros H. apply hasBotMarker_test in H.
  unfold handleMessage. now rewrite H.
Qed.

(** Without text the handler stops once the Thread is there. *)
Lemma handleMessage_no_text (event : Event.t) (mailboxInfo : SlackMailboxInfo)
    (w : World) :
  ~ hasBotMarker event -> ~ hasText event ->
  handle event mailboxInfo w = (Normal tt, resolved w event).
Proof.
  intros Hbot Htext.
  rewrite <- hasBotMarker_test in Hbot. apply not_true_is_false in Hbot.
  rewrite <- hasText_test in Htext. apply not_true_is_false in Htext.
  unfold handleMessage, resolved, threadFor. rewrite Hbot.
  unfold bind, findFirstAgentThread, insertAgentThread.
  destruct (find _ (agentThreads w)) as [t|];
    destruct (Event.text event) as [[|c text]|]; try discriminate;
    reflexivity.
Qed.

(** With text and a Message row for it already, the insert yields no row
    and the handler stops. *)
Lemma handleMessage_duplicate (event : Event.t)
    (mailboxInfo : SlackMailboxInfo) (w : World) (text : string) :
  ~ hasBotMarker event ->
  Event.text event = Some text -> text <> "" ->
  alreadyRecorded w event = true ->
  handle event mailboxInfo w
  = (Normal tt, logged (insertOp w event text) (resolved w event)).
Proof.
  intros Hbot Htext Hne Hdup.
  rewrite <- hasBotMarker_test in Hbot. apply not_true_is_false in Hbot.
  unfold alreadyRecorded in Hdup. revert Hdup.
  unfold handleMessage, resolved, insertOp, threadFor. rewrite Hbot, Htext.
  destruct text as [|c text]; [contradiction|].
  unfold bind, findFirstAgentThread, insertAgentThread, insertAgentMessage.
  destruct (find _ (agentThreads w)) as [t|]; cbn; intros ->; reflexivity.
Qed.

(** With text and no Message row for it yet, the row is created and the
    message is routed. *)
Lemma handleMessage_routes (event : Event.t) (mailboxInfo : SlackMailboxInfo)
    (w : World) (text : string) :
  ~ hasBotMarker event ->
  Event.text event = Some text -> text <> "" ->
  alreadyRecorded w event = false ->
  handle event mailboxInfo w
  = route event mailboxInfo (threadFor w event) text (recorded w event text).
Proof.
  intros Hbot Htext Hne Hdup.
  rewrite <- hasBotMarker_test in Hbot. apply not_true_is_false in Hbot.
  unfold alreadyRecorded in Hdup. revert Hdup.
  unfold handleMessage, recorded, resolved, insertOp, threadFor.
  rewrite Hbot, Htext.
  destruct text as [|c text]; [contradiction|].
  unfold bind, findFirstAgentThread, insertAgentThread, insertAgentMessage.
  destruct (find _ (agentThreads w)) as [t|]; cbn; intros ->; reflexivity.
Qed.

End Recording.

(** * [handleMessage]: routing, and the tables *)

Section Routing.

Variable slack : SlackApi.
Variable WHICH_MAILBOX_MESSAGE : string.
Variable toLowerCase : string -> string.

Local Abbreviation handle :=
  (handleMessage slack WHICH_MAILBOX_MESSAGE toLowerCase).
Local Abbreviation route :=
  (routeMessage slack WHICH_MAILBOX_MESSAGE toLowerCase).

Lemma findMentionedMailbox_Some (text : string) (mailboxes : list Mailbox.t)
    (current m : Mailbox.t) :
  findMentionedMailbox toLowerCase text mailboxes current = Some m ->
  (1 < List.length mailboxes)%nat /\ In m mailboxes
  /\ Mailbox.id m <> Mailbox.id current
  /\ contains (toLowerCase text) (toLowerCase (Mailbox.name m)).
Proof.
  unfold findMentionedMailbox.
  destruct (List.length mailboxes <=? 1)%nat eqn:El; [discriminate|].
  intros H. apply find_some in H as [Hin H].
  apply andb_true_iff in H as [Hid Hinc].
  apply Nat.leb_gt in El. apply negb_true_iff, Z.eqb_neq in Hid.
  apply includes_contains in Hinc. auto.
Qed.

Lemma findMentionedMailbox_single (text : string)
    (mailboxes : list Mailbox.t) (current : Mailbox.t) :
  (List.length mailboxes <= 1)%nat ->
  findMentionedMailbox toLowerCase text mailboxes current = None.
Proof.
  intros H. unfold findMentionedMailbox.
  apply Nat.leb_le in H. now rewrite H.
Qed.

Lemma effectiveMailbox_Some (mailboxInfo : SlackMailboxInfo)
    (t : AgentThread.t) (current : Mailbox.t) :
  effectiveMailbox mailboxInfo t = Some current ->
  In current (mailboxes mailboxInfo)
  \/ currentMailbox mailboxInfo = Some current.
Proof.
  unfold effectiveMailbox, Js.nullish.
  destruct (find _ (mailboxes mailboxInfo)) as [m|] eqn:E; intros H.
  - injection H as <-. left. now apply find_some in E.
  - now right.
Qed.

(** What routing may do to the tables: the Message table is untouched, and
    the Thread table is either untouched or has the mailbox of the routed
    Thread set. *)
Lemma route_tables (event : Event.t) (mailboxInfo : SlackMailboxInfo)
    (t : AgentThread.t) (text : string) (w0 : World) :
  post (route event mailboxInfo t text) w0 (fun _ w' =>
    agentMessages w' = agentMessages w0
    /\ nextThreadId w' = nextThreadId w0
    /\ (agentThreads w' = agentThreads w0
        \/ exists current m,
             effectiveMailbox mailboxInfo t = Some current
             /\ agentThreads w'
                = map (setMailboxId (AgentThread.id t) (Mailbox.id m))
                    (agentThreads w0)
             /\ ((Js.truthyNum (AgentThread.mailboxId t) = false
                  /\ m = current)
                 \/ findMentionedMailbox toLowerCase text
                      (mailboxes mailboxInfo) current
                    = Some m))).
Proof.
  unfold routeMessage. fold (effectiveMailbox mailboxInfo t).
  destruct (effectiveMailbox mailboxInfo t) as [current|] eqn:Ecur.
  - cbv zeta.
    destruct (findMentionedMailbox toLowerCase text (mailboxes mailboxInfo)
                current)
      as [m|] eqn:Em;
      destruct (Js.truthyNum (AgentThread.mailboxId t)) eqn:Eb;
      cbn [negb orb Js.isSome andb]; wp;
      cbn [agentMessages agentThreads nextThreadId logged];
      (split; [reflexivity|]); (split; [reflexivity|]);
      first [ left; reflexivity
            | right; eexists; eexists; split; [reflexivity|];
              split; [reflexivity|]; auto ].
  - wp; cbn [agentMessages agentThreads nextThreadId logged]; auto.
Qed.


Lemma stable_refl (w : World) : stable w w.
Proof. split; eauto. Qed.

Lemma stable_trans (w1 w2 w3 : World) :
  stable w1 w2 -> stable w2 w3 -> stable w1 w3.
Proof.
  intros [Ht Hm] [Ht' Hm']. split; [|now auto].
  intros c r t H. destruct (Ht _ _ _ H) as (t' & H' & E).
  destruct (Ht' _ _ _ H') as (t'' & H'' & E').
  exists t''. split; [assumption | congruence].
Qed.

Lemma stable_tables (w w' : World) :
  agentThreads w' = agentThreads w -> agentMessages w' = agentMessages w ->
  stable w w'.
Proof. intros Ht Hm. unfold stable. rewrite Ht, Hm. apply stable_refl. Qed.

Lemma find_app_l {A : Type} (p : A -> bool) (l l' : list A) (x : A) :
  find p l = Some x -> find p (l ++ l') = Some x.
Proof.
  induction l as [|a l IH]; simpl; [discriminate|].
  destruct (p a); auto.
Qed.

Lemma find_app_r {A : Type} (p : A -> bool) (l l' : list A) :
  find p l = None -> find p (l ++ l') = find p l'.
Proof.
  induction l as [|a l IH]; simpl; [reflexivity|].
  destruct (p a); [discriminate | auto].
Qed.

Lemma threadMatches_setMailboxId (slackChannel threadTs : string)
    (threadId mailboxId : Z) (t : AgentThread.t) :
  threadMatches slackChannel threadTs (setMailboxId threadId mailboxId t)
  = threadMatches slackChannel threadTs t.
Proof. unfold setMailboxId. now destruct (AgentThread.id t =? threadId). Qed.

Lemma id_setMailboxId (threadId mailboxId : Z) (t : AgentThread.t) :
  AgentThread.id (setMailboxId threadId mailboxId t) = AgentThread.id t.
Proof. unfold setMailboxId. now destruct (AgentThread.id t =? threadId). Qed.

Lemma find_setMailboxId (slackChannel threadTs : string)
    (threadId mailboxId : Z) (l : list AgentThread.t) :
  find (threadMatches slackChannel threadTs)
    (map (setMailboxId threadId mailboxId) l)
  = option_map (setMailboxId threadId mailboxId)
      (find (threadMatches slackChannel threadTs) l).
Proof.
  induction l as [|a l IH]; simpl; [reflexivity|].
  rewrite threadMatches_setMailboxId.
  now destruct (threadMatches slackChannel threadTs a).
Qed.

Lemma stable_rebound (w w' : World) (threadId mailboxId : Z) :
  agentThreads w' = map (setMailboxId threadId mailboxId) (agentThreads w) ->
  agentMessages w' = agentMessages w ->
  stable w w'.
Proof.
  intros Ht Hm. split; [|now rewrite Hm].
  intros c r t H. rewrite Ht, find_setMailboxId, H. simpl.
  eexists. split; [reflexivity | apply id_setMailboxId].
Qed.

Lemma threadMatches_threadFor_fresh (w : World) (event : Event.t) :
  threadMatches (Event.channel event) (threadRoot event)
    (AgentThread.mk (nextThreadId w) (Event.channel event)
       (threadRoot event) None) = true.
Proof. unfold threadMatches. simpl. now rewrite !String.eqb_refl. Qed.

(** After the lookup-or-create, the lookup finds the Thread of the event. *)
Lemma find_resolved (w : World) (event : Event.t) :
  find (threadMatches (Event.channel event) (threadRoot event))
    (agentThreads (resolved w event)) = Some (threadFor w event).
Proof.
  unfold resolved, threadFor.
  destruct (find _ (agentThreads w)) as [t|] eqn:E; cbn [agentThreads logged].
  - assumption.
  - rewrite find_app_r by assumption. cbn [find].
    now rewrite threadMatches_threadFor_fresh.
Qed.

Lemma agentThreads_resolved (w : World) (event : Event.t) :
  exists created : list AgentThread.t,
    agentThreads (resolved w event) = (agentThreads w ++ created)%list
    /\ (threadIn w event -> created = [])
    /\ (forall t, In t created ->
          AgentThread.mailboxId t = None
          /\ AgentThread.id t = nextThreadId w /\ t = threadFor w event).
Proof.
  unfold resolved, threadIn, threadFor.
  destruct (find _ (agentThreads w)) as [t|] eqn:E; cbn [agentThreads logged].
  - exists []. rewrite app_nil_r. repeat split; auto; contradiction.
  - eexists. split; [reflexivity|]. split.
    + intros (t & Ht). discriminate.
    + intros t [<-|[]]. auto.
Qed.

Lemma agentMessages_resolved (w : World) (event : Event.t) :
  agentMessages (resolved w event) = agentMessages w.
Proof. unfold resolved. now destruct (find _ (agentThreads w)). Qed.

Lemma stable_resolved (w : World) (event : Event.t) :
  stable w (resolved w event).
Proof.
  split; [|now rewrite agentMessages_resolved].
  destruct (agentThreads_resolved w event) as (created & -> & _).
  intros c r t H. exists t. split; [now apply find_app_l | reflexivity].
Qed.

Lemma stable_recorded (w : World) (event : Event.t) (text : string) :
  stable w (recorded w event text).
Proof.
  apply (stable_trans _ (resolved w event)); [apply stable_resolved|].
  split; cbn [recorded agentThreads agentMessages]; [eauto|].
  intros i ts H. rewrite existsb_app, H. reflexivity.
Qed.

Lemma stable_route (event : Event.t) (mailboxInfo : SlackMailboxInfo)
    (t : AgentThread.t) (text : string) (w0 : World) :
  stable w0 (world (route event mailboxInfo t text w0)).
Proof.
  destruct (route_tables event mailboxInfo t text w0)
    as (Hm & _ & [Ht | (current & m & _ & Ht & _)]).
  - now apply stable_tables.
  - now apply (stable_rebound _ _ _ _ Ht).
Qed.

(** The four ways a delivery goes. *)
Lemma handleMessage_cases (event : Event.t) (mailboxInfo : SlackMailboxInfo)
    (w : World) :
  (hasBotMarker event /\ handle event mailboxInfo w = (Normal tt, w))
  \/ (~ hasBotMarker event /\ ~ hasText event
      /\ handle event mailboxInfo w = (Normal tt, resolved w event))
  \/ (~ hasBotMarker event
      /\ exists text,
           Event.text event = Some text /\ text <> ""
           /\ alreadyRecorded w event = true
           /\ handle event mailboxInfo w
              = (Normal tt, logged (insertOp w event text) (resolved w event)))
  \/ (~ hasBotMarker event
      /\ exists text,
           Event.text event = Some text /\ text <> ""
           /\ alreadyRecorded w event = false
           /\ handle event mailboxInfo w
              = route event mailboxInfo (threadFor w event) text
                  (recorded w event text)).
Proof.
  destruct (Js.truthy (Event.bot_id event)
            || Js.isSome (Event.bot_profile event)) eqn:Eb.
  - apply hasBotMarker_test in Eb. left. split; [assumption|].
    now apply handleMessage_bot.
  - right. apply not_true_iff_false in Eb. rewrite hasBotMarker_test in Eb.
    destruct (Js.truthy (Event.text event)) eqn:Et.
    + right. apply hasText_test in Et as (text & Ht & Hne).
      destruct (alreadyRecorded w event) eqn:Ea; [left | right];
        (split; [assumption|]); exists text; repeat split; auto.
      * now apply handleMessage_duplicate.
      * now apply handleMessage_routes.
    + left. apply not_true_iff_false in Et. rewrite hasText_test in Et.
      repeat split; auto. now apply handleMessage_no_text.
Qed.

Lemma stable_handleMessage (event : Event.t) (mailboxInfo : SlackMailboxInfo)
    (w : World) :
  stable w (world (handle event mailboxInfo w)).
Proof.
  destruct (handleMessage_cases event mailboxInfo w)
    as [[_ ->] | [(_ & _ & ->) | [(_ & text & _ & _ & _ & ->)
                                 | (_ & text & _ & _ & _ & ->)]]];
    cbn [world snd].
  - apply stable_refl.
  - apply stable_resolved.
  - apply (stable_trans _ (resolved w event)); [apply stable_resolved|].
    now apply stable_tables.
  - apply (stable_trans _ (recorded w event text));
      [apply stable_recorded | apply stable_route].
Qed.

Lemma stable_deliverAll (deliveries : list (Event.t * SlackMailboxInfo))
    (w : World) :
  stable w (deliverAll slack WHICH_MAILBOX_MESSAGE toLowerCase deliveries w).
Proof.
  revert w; induction deliveries as [|[event mailboxInfo] rest IH];
    intros w; cbn [deliverAll].
  - apply stable_refl.
  - eapply stable_trans; [apply stable_handleMessage | apply IH].
Qed.


Lemma threadIn_stable (w w' : World) (event : Event.t) :
  stable w w' -> threadIn w event -> threadIn w' event.
Proof.
  intros [Ht _] (t & H). destruct (Ht _ _ _ H) as (t' & H' & _).
  now exists t'.
Qed.

Lemma recordedIn_stable (w w' : World) (event : Event.t) :
  stable w w' -> recordedIn w event -> recordedIn w' event.
Proof.
  intros [Ht Hm] (t & H & Hc). destruct (Ht _ _ _ H) as (t' & H' & E).
  exists t'. split; [assumption|]. rewrite E. now apply Hm.
Qed.

Lemma threadFor_found (w : World) (event : Event.t) (t : AgentThread.t) :
  find (threadMatches (Event.channel event) (threadRoot event))
    (agentThreads w) = Some t ->
  threadFor w event = t.
Proof. intros H. unfold threadFor. now rewrite H. Qed.

Lemma resolved_found (w : World) (event : Event.t) :
  threadIn w event ->
  resolved w event
  = logged (DbFindFirstThread (Event.channel event) (threadRoot event)) w.
Proof. intros (t & H). unfold resolved. now rewrite H. Qed.

Lemma alreadyRecorded_recordedIn (w : World) (event : Event.t) :
  recordedIn w event -> alreadyRecorded w event = true.
Proof.
  intros (t & H & Hc). unfold alreadyRecorded.
  now rewrite (threadFor_found _ _ _ H).
Qed.

Lemma conflicts_refl (agentThreadId : Z) (messageTs : string)
    (id : Z) (role content slackChannel : string) :
  conflicts agentThreadId messageTs
    (AgentMessage.mk id agentThreadId role content slackChannel messageTs)
  = true.
Proof.
  unfold conflicts. simpl. now rewrite Z.eqb_refl, String.eqb_refl.
Qed.

(** Once a delivery without bot marker has been handled, its Thread is in
    the table. *)
Lemma delivered_threadIn (event : Event.t) (mailboxInfo : SlackMailboxInfo)
    (w : World) :
  ~ hasBotMarker event ->
  threadIn (world (handle event mailboxInfo w)) event.
Proof.
  intros Hbot.
  assert (Hres : threadIn (resolved w event) event)
    by (eexists; apply find_resolved).
  destruct (handleMessage_cases event mailboxInfo w)
    as [[H _] | [(_ & _ & ->) | [(_ & text & _ & _ & _ & ->)
                                | (_ & text & _ & _ & _ & ->)]]];
    cbn [world snd]; [contradiction | assumption | assumption |].
  apply (threadIn_stable (recorded w event text)); [apply stable_route|].
  assumption.
Qed.

(** Once a delivery with text and without bot marker has been handled, its
    Message row is in the table, whether this delivery created it or an
    earlier one had. *)
Lemma delivered_recordedIn (event : Event.t)
    (mailboxInfo : SlackMailboxInfo) (w : World) :
  ~ hasBotMarker event -> hasText event ->
  recordedIn (world (handle event mailboxInfo w)) event.
Proof.
  intros Hbot Htext.
  destruct (handleMessage_cases event mailboxInfo w)
    as [[H _] | [(_ & H & _) | [(_ & text & _ & _ & Hdup & ->)
                               | (_ & text & _ & _ & _ & ->)]]];
    cbn [world snd]; try contradiction.
  - exists (threadFor w event). split.
    + apply find_resolved.
    + cbn [logged agentMessages]. now rewrite agentMessages_resolved.
  - apply (recordedIn_stable (recorded w event text)); [apply stable_route|].
    exists (threadFor w event). split.
    + apply find_resolved.
    + cbn [recorded agentMessages]. rewrite existsb_app. cbn [existsb].
      rewrite conflicts_refl. now rewrite orb_true_r.
Qed.

Lemma newOps_app (w w' : World) (ops : list Op) :
  log w' = (log w ++ ops)%list -> newOps w w' = ops.
Proof.
  intros H. unfold newOps. rewrite H, skipn_app, skipn_all, Nat.sub_diag.
  reflexivity.
Qed.

Lemma newOps_refl (w : World) : newOps w w = [].
Proof. apply newOps_app. now rewrite app_nil_r. Qed.

Lemma only_db_calls (ops : list Op) :
  forallb isDbCall ops = true ->
  existsb isTriggerEvent ops = false /\ existsb isSlackCall ops = false.
Proof.
  induction ops as [|op ops IH]; cbn [forallb existsb]; [auto|].
  intros H. apply andb_true_iff in H as [Hop H].
  destruct (IH H) as [-> ->]. now destruct op.
Qed.

(** A delivery whose Thread, and whose Message row if it has text, are in
    the tables already: nothing is created, and only the persistence layer
    is called. *)
Lemma handleMessage_known (event : Event.t) (mailboxInfo : SlackMailboxInfo)
    (w : World) :
  (~ hasBotMarker event -> threadIn w event) ->
  (~ hasBotMarker event -> hasText event -> recordedIn w event) ->
  exists w',
    handle event mailboxInfo w = (Normal tt, w')
    /\ agentThreads w' = agentThreads w
    /\ agentMessages w' = agentMessages w
    /\ forallb isDbCall (newOps w w') = true.
Proof.
  intros Hthread Hrecorded.
  destruct (handleMessage_cases event mailboxInfo w)
    as [[_ ->] | [(Hbot & _ & ->) | [(Hbot & text & _ & _ & _ & ->)
                                    | (Hbot & text & Ht & Hne & Hdup & _)]]].
  - exists w. rewrite newOps_refl. auto.
  - rewrite (resolved_found _ _ (Hthread Hbot)).
    eexists. split; [reflexivity|]. repeat split.
    erewrite newOps_app by (cbn [log logged]; reflexivity). reflexivity.
  - rewrite (resolved_found _ _ (Hthread Hbot)).
    eexists. split; [reflexivity|]. repeat split.
    erewrite newOps_app
      by (cbn [log logged]; rewrite <- app_assoc; reflexivity).
    reflexivity.
  - assert (Htext : hasText event) by now exists text.
    rewrite (alreadyRecorded_recordedIn _ _ (Hrecorded Hbot Htext)) in Hdup.
    discriminate.
Qed.

Lemma threadIn_redelivery (w : World) (first again : Event.t) :
  redelivery first again -> threadIn w first -> threadIn w again.
Proof.
  intros (Hc & Hr & _). unfold threadIn. now rewrite Hc, Hr.
Qed.

Lemma recordedIn_redelivery (w : World) (first again : Event.t) :
  redelivery first again -> recordedIn w first -> recordedIn w again.
Proof.
  intros (Hc & Hr & Hts & _). unfold recordedIn. now rewrite Hc, Hr, Hts.
Qed.

(** C1: on a table with no two Threads for one channel and thread root,
    once a delivery has been handled, a [redelivery] of it (the same
    channel, thread root and message timestamp), right after it or after
    any number of other deliveries, creates no Thread row and no Message
    row: the handler returns normally with both tables as they were,
    having called the persistence layer only (the lookup, and the insert
    that yields no row), so it enqueues no job and makes no call to
    Slack. *)
Theorem redelivery_is_dropped (w : World)
    (first : Event.t) (firstInfo : SlackMailboxInfo)
    (between : list (Event.t * SlackMailboxInfo))
    (again : Event.t) (againInfo : SlackMailboxInfo) :
  uniqueRoots w ->
  redelivery first again ->
  let w1 :=
    deliverAll slack WHICH_MAILBOX_MESSAGE toLowerCase
      ((first, firstInfo) :: between) w in
  let r := handle again againInfo w1 in
  result r = Normal tt
  /\ agentThreads (world r) = agentThreads w1
  /\ agentMessages (world r) = agentMessages w1
  /\ existsb isTriggerEvent (newOps w1 (world r)) = false
  /\ existsb isSlackCall (newOps w1 (world r)) = false.
Proof.
  intros Hroots Hre w1 r.
  assert (Hst : stable (world (handle first firstInfo w)) w1)
    by exact (stable_deliverAll between _).
  destruct (handleMessage_known again againInfo w1)
    as (w' & Hrun & Ht & Hm & Hops).
  - intros Hbot. apply (threadIn_redelivery _ first); [assumption|].
    apply (threadIn_stable _ _ _ Hst), delivered_threadIn.
    destruct Hre as (_ & _ & _ & Hb & _). tauto.
  - intros Hbot Htext. apply (recordedIn_redelivery _ first); [assumption|].
    apply (recordedIn_stable _ _ _ Hst).
    destruct Hre as (_ & _ & _ & Hb & Htx).
    apply delivered_recordedIn; tauto.
  - subst r. rewrite Hrun. cbn [result world fst snd].
    destruct (only_db_calls _ Hops). auto.
Qed.


Lemma NoDup_map_eq {A B : Type} (f : A -> B) (l : list A) (x y : A) :
  NoDup (map f l) -> In x l -> In y l -> f x = f y -> x = y.
Proof.
  induction l as [|a l IH]; cbn [map]; intros Hnd Hx Hy E; [contradiction|].
  inversion Hnd as [|? ? Hnotin Hnd']; subst.
  destruct Hx as [->|Hx], Hy as [->|Hy]; auto.
  - contradiction Hnotin. rewrite E. now apply in_map.
  - contradiction Hnotin. rewrite <- E. now apply in_map.
Qed.

Lemma Forall2_same {A : Type} (R : A -> A -> Prop) (l : list A) :
  (forall x, In x l -> R x x) -> Forall2 R l l.
Proof.
  induction l as [|a l IH]; intros H; constructor.
  - apply H. now left.
  - apply IH. intros x Hx. apply H. now right.
Qed.

Lemma Forall2_map_r {A : Type} (R : A -> A -> Prop) (f : A -> A)
    (l : list A) :
  (forall x, In x l -> R x (f x)) -> Forall2 R l (map f l).
Proof.
  induction l as [|a l IH]; intros H; cbn [map]; constructor.
  - apply H. now left.
  - apply IH. intros x Hx. apply H. now right.
Qed.

(** Under the primary key, the only row with the id of the Thread of the
    event is that Thread. *)
Lemma primaryKey_threadFor (w : World) (event : Event.t)
    (t : AgentThread.t) :
  primaryKey w -> In t (agentThreads w) ->
  AgentThread.id t = AgentThread.id (threadFor w event) ->
  t = threadFor w event.
Proof.
  intros [Hnd Hlt] Hin. unfold threadFor.
  destruct (find _ (agentThreads w)) as [t'|] eqn:E; cbn [AgentThread.id].
  - apply find_some in E as [Hin' _].
    now apply (NoDup_map_eq AgentThread.id (agentThreads w)).
  - intros Hid. rewrite Forall_forall in Hlt. apply Hlt in Hin. lia.
Qed.

(** C2: one delivery takes every row of the Thread table through one
    [bindingStep]: the row is unchanged, or it had no mailbox set and gets
    one, or it had a mailbox set and gets the listed mailbox, other than
    the effective one, whose name the text contains, both lower-cased by
    the runtime, more than one mailbox being listed.  Rows are only added
    at the end.  So a mailbox id that is set is overwritten by explicit
    mention only.  This holds whatever the case mapping of the runtime
    is. *)
Theorem binding_transitions (event : Event.t)
    (mailboxInfo : SlackMailboxInfo) (w : World) :
  primaryKey w ->
  exists updated added : list AgentThread.t,
    agentThreads (world (handle event mailboxInfo w))
    = (updated ++ added)%list
    /\ Forall2 (bindingStep toLowerCase event mailboxInfo)
      (agentThreads w) updated.
Proof.
  intros Hkey.
  assert (Hsame : Forall2 (bindingStep toLowerCase event mailboxInfo)
                    (agentThreads w) (agentThreads w))
    by (apply Forall2_same; intros; constructor).
  destruct (agentThreads_resolved w event) as (created & Hres & _).
  destruct (handleMessage_cases event mailboxInfo w)
    as [[_ ->] | [(_ & _ & ->) | [(_ & text & _ & _ & _ & ->)
                                 | (_ & text & Htext & _ & _ & ->)]]];
    cbn [world snd].
  - exists (agentThreads w), []. now rewrite app_nil_r.
  - now exists (agentThreads w), created.
  - now exists (agentThreads w), created.
  - destruct (route_tables event mailboxInfo (threadFor w event) text
                (recorded w event text))
      as (_ & _ & [Ht | (current & m & Hcur & Ht & Hwhy)]);
      unfold world in *; rewrite Ht; cbn [recorded agentThreads];
      rewrite Hres.
    + now exists (agentThreads w), created.
    + rewrite map_app. eexists; eexists. split; [reflexivity|].
      apply Forall2_map_r. intros t Hin. unfold setMailboxId.
      destruct (AgentThread.id t =? AgentThread.id (threadFor w event))
        eqn:Eid; [|constructor].
      apply Z.eqb_eq in Eid.
      apply (primaryKey_threadFor w event t Hkey Hin) in Eid.
      change (bindingStep toLowerCase event mailboxInfo t (withMailbox t m)).
      rewrite <- Eid in *.
      destruct (Js.truthyNum (AgentThread.mailboxId t)) eqn:Eb.
      * destruct Hwhy as [[Hf _] | Hm]; [discriminate|].
        destruct (findMentionedMailbox_Some _ _ _ _ Hm)
          as (Hlen & Hinm & Hid & Hc).
        now apply (Rebinding _ _ _ t text current m).
      * apply FirstBinding; [assumption|].
        destruct Hwhy as [[_ ->] | Hm].
        -- now apply (effectiveMailbox_Some _ t).
        -- left. now apply (findMentionedMailbox_Some _ _ _ _ Hm).
Qed.

End Routing.

(** * [handleMessage]: routing, and the calls *)

Section Calls.

Variable slack : SlackApi.
Variable WHICH_MAILBOX_MESSAGE : string.
Variable toLowerCase : string -> string.

Local Abbreviation handle :=
  (handleMessage slack WHICH_MAILBOX_MESSAGE toLowerCase).
Local Abbreviation route :=
  (routeMessage slack WHICH_MAILBOX_MESSAGE toLowerCase).

Lemma thinking_not_notice (mailboxName : string) :
  "_Thinking..._" <> switchNotice mailboxName.
Proof. discriminate. Qed.

Lemma prompt_ends (mailboxes : list Mailbox.t) :
  exists body,
    whichMailboxPrompt WHICH_MAILBOX_MESSAGE mailboxes = (body ++ ")")%string.
Proof.
  unfold whichMailboxPrompt.
  exists (WHICH_MAILBOX_MESSAGE ++ " ("
          ++ String.concat "/" (map Mailbox.name mailboxes))%string.
  now rewrite !string_app_assoc.
Qed.

Lemma prompt_not_notice (mailboxes : list Mailbox.t) (mailboxName : string) :
  whichMailboxPrompt WHICH_MAILBOX_MESSAGE mailboxes
  <> switchNotice mailboxName.
Proof.
  destruct (prompt_ends mailboxes) as (body & ->). unfold switchNotice.
  intros H.
  assert (E : ("_Switched to the " ++ mailboxName ++ " mailbox_"
               = ("_Switched to the " ++ mailboxName ++ " mailbox") ++ "_")%string).
  { now rewrite !string_app_assoc. }
  rewrite E in H. apply last_char_inj in H. discriminate.
Qed.

Lemma prompt_not_thinking (mailboxes : list Mailbox.t) :
  whichMailboxPrompt WHICH_MAILBOX_MESSAGE mailboxes <> "_Thinking..._".
Proof.
  destruct (prompt_ends mailboxes) as (body & ->). intros H.
  change "_Thinking..._" with ("_Thinking..." ++ "_")%string in H.
  apply last_char_inj in H. discriminate.
Qed.

Ltac log_ops :=
  eexists; split;
  [ cbn [log logged]; rewrite <- ?app_assoc;
    first [ reflexivity | symmetry; apply app_nil_r ] | ];
  cbn [app].

(** The "switched" notice is posted exactly when a mention override with a
    credential was found. *)
Lemma route_notice (event : Event.t) (mailboxInfo : SlackMailboxInfo)
    (t : AgentThread.t) (text : string) (w0 : World) :
  post (route event mailboxInfo t text) w0 (fun _ w' =>
    exists ops, log w' = (log w0 ++ ops)%list
    /\ ((exists token mailboxName,
            In (ChatPostMessage token (Event.channel event)
                  (threadRoot event) (switchNotice mailboxName)) ops)
         <-> (exists current m token,
                effectiveMailbox mailboxInfo t = Some current
                /\ findMentionedMailbox toLowerCase text
                     (mailboxes mailboxInfo) current
                   = Some m
                /\ Mailbox.slackBotToken m = Some token))
    /\ (forall current m token,
           effectiveMailbox mailboxInfo t = Some current ->
           findMentionedMailbox toLowerCase text (mailboxes mailboxInfo) current
           = Some m ->
           Mailbox.slackBotToken m = Some token ->
           In (ChatPostMessage token (Event.channel event)
                 (threadRoot event) (switchNotice (Mailbox.name m))) ops)).
Proof.
  unfold routeMessage. fold (effectiveMailbox mailboxInfo t).
  destruct (effectiveMailbox mailboxInfo t) as [current|] eqn:Ecur.
  - cbv zeta.
    destruct (findMentionedMailbox toLowerCase text (mailboxes mailboxInfo)
                current)
      as [m|] eqn:Em;
      destruct (Js.truthyNum (AgentThread.mailboxId t)) eqn:Eb;
      try (destruct (findMentionedMailbox_Some _ _ _ _ _ Em) as (Hlen & _);
           apply Nat.ltb_lt in Hlen; rewrite Hlen);
      cbn [negb orb Js.isSome andb]; wp; log_ops.
    all: split; [split|].
    all: try (intros (tok & nm & Hin); cbn [In] in Hin;
              repeat match goal with
                     | H : _ \/ _ |- _ => destruct H as [H|H]
                     end;
              try contradiction; try discriminate;
              try (injection Hin as _ Htxt; discriminate Htxt);
              (do 3 eexists; split; [reflexivity | split; eassumption])).
    all: try (intros (c0 & m0 & tok & Hc & Hm & Ht); congruence).
    all: try (intros c0 m0 tok Hc Hm Ht; congruence).
    all: try (intros _; do 2 eexists; cbn [In]; unfold switchNotice;
              right; left; reflexivity).
    all: intros c0 m0 tok Hc Hm Ht;
      assert (m0 = m) by congruence; subst m0;
      cbn [In]; unfold switchNotice; right; left; congruence.
  - wp; log_ops.
    all: fold (whichMailboxPrompt WHICH_MAILBOX_MESSAGE
                 (mailboxes mailboxInfo)).
    all: split; [split|]; try (intros; discriminate).
    all: try (intros (c0 & m0 & tok & Hc & _); discriminate).
    all: intros (tok & nm & Hin); cbn [In] in Hin;
      repeat match goal with
             | H : _ \/ _ |- _ => destruct H as [H|H]
             end;
      try contradiction; try discriminate.
    all: injection Hin as _ Htxt; exfalso;
      apply (prompt_not_notice _ _ Htxt).
Qed.


Lemma cons_eq_inv {A : Type} (a b : A) (l l' : list A) :
  a :: l = b :: l' -> a = b /\ l = l'.
Proof. intros H. now injection H. Qed.

(** Finds where a given call sits in an explicit list of calls. *)
Ltac locate Hops :=
  repeat match type of Hops with
         | _ = (?pre ++ _ :: _)%list =>
             let Hh := fresh "Hhead" in
             destruct pre as [|? pre]; cbn [app] in Hops;
             try discriminate Hops;
             apply cons_eq_inv in Hops; destruct Hops as [Hh Hops];
             try discriminate Hh;
             try (injection Hh; intros; discriminate)
         end.

Lemma route_placeholder (event : Event.t) (mailboxInfo : SlackMailboxInfo)
    (t : AgentThread.t) (text : string) (w0 : World) :
  post (route event mailboxInfo t text) w0 (fun r w' =>
    exists ops, log w' = (log w0 ++ ops)%list
    /\ forall pre token rest,
         ops = (pre ++ placeholder token event :: rest)%list ->
         noTimestamp
           (postMessage slack (log w0 ++ pre) token (Event.channel event)
              (threadRoot event) "_Thinking..._") ->
         r = Thrown (Error "Failed to post initial message")
         /\ rest = [] /\ existsb isTriggerEvent pre = false).
Proof.
  unfold routeMessage, placeholder.
  fold (effectiveMailbox mailboxInfo t).
  destruct (effectiveMailbox mailboxInfo t) as [current|] eqn:Ecur.
  - cbv zeta.
    destruct (findMentionedMailbox toLowerCase text (mailboxes mailboxInfo)
                current)
      as [m|] eqn:Em;
      destruct (Js.truthyNum (AgentThread.mailboxId t)) eqn:Eb;
      cbn [negb orb Js.isSome andb]; wp; log_ops.
    all: intros pre token rest Hops Hno.
    all: locate Hops.
    all: cbn [log logged] in *; rewrite <- ?app_assoc in *; cbn [app] in *.
    all: rewrite ?app_nil_r in *.
    all: subst;
      match goal with
      | H : ChatPostMessage _ _ _ _ = ChatPostMessage _ _ _ _ |- _ =>
          injection H as <-
      end.
    all: destruct Hno as [Hno|Hno]; try congruence; repeat split.
  - wp; log_ops.
    all: intros pre token rest Hops Hno.
    all: fold (whichMailboxPrompt WHICH_MAILBOX_MESSAGE
                 (mailboxes mailboxInfo)) in *.
    all: locate Hops.
    all: injection Hhead as _ Htxt; exfalso;
      apply (prompt_not_thinking _ Htxt).
Qed.

(** A first binding without mention override is persisted. *)
Lemma route_first_binding (event : Event.t) (mailboxInfo : SlackMailboxInfo)
    (t : AgentThread.t) (text : string) (w0 : World) (current : Mailbox.t) :
  Js.truthyNum (AgentThread.mailboxId t) = false ->
  effectiveMailbox mailboxInfo t = Some current ->
  findMentionedMailbox toLowerCase text (mailboxes mailboxInfo) current
  = None ->
  post (route event mailboxInfo t text) w0 (fun _ w' =>
    exists ops, log w' = (log w0 ++ ops)%list
    /\ In (DbUpdateThread (AgentThread.id t) (Mailbox.id current)) ops).
Proof.
  intros Eb Ecur Em. unfold routeMessage.
  fold (effectiveMailbox mailboxInfo t). rewrite Ecur. cbv zeta.
  rewrite Em, Eb. cbn [negb orb Js.isSome andb]. wp; log_ops.
  all: now left.
Qed.

(** The placeholder is posted with the credential of the effective
    mailbox, whether a mention override was found or not. *)
Lemma route_placeholder_credential (event : Event.t)
    (mailboxInfo : SlackMailboxInfo) (t : AgentThread.t) (text : string)
    (w0 : World) :
  post (route event mailboxInfo t text) w0 (fun _ w' =>
    exists ops, log w' = (log w0 ++ ops)%list
    /\ forall token,
         In (placeholder token event) ops ->
         exists current,
           effectiveMailbox mailboxInfo t = Some current
           /\ Mailbox.slackBotToken current = Some token).
Proof.
  unfold routeMessage, placeholder.
  fold (effectiveMailbox mailboxInfo t).
  destruct (effectiveMailbox mailboxInfo t) as [current|] eqn:Ecur.
  - cbv zeta.
    destruct (findMentionedMailbox toLowerCase text (mailboxes mailboxInfo)
                current)
      as [m|] eqn:Em;
      destruct (Js.truthyNum (AgentThread.mailboxId t)) eqn:Eb;
      cbn [negb orb Js.isSome andb]; wp; log_ops.
    all: intros token Hin; cbn [In] in Hin;
      repeat match goal with
             | H : _ \/ _ |- _ => destruct H as [H|H]
             end;
      try contradiction; try discriminate;
      try (injection Hin; intros; discriminate).
    all: injection Hin as <-; eexists; split; [reflexivity|assumption].
  - wp; log_ops.
    all: fold (whichMailboxPrompt WHICH_MAILBOX_MESSAGE
                 (mailboxes mailboxInfo)).
    all: intros token Hin; cbn [In] in Hin;
      repeat match goal with
             | H : _ \/ _ |- _ => destruct H as [H|H]
             end;
      try contradiction; try discriminate.
    all: injection Hin as _ Htxt; exfalso;
      apply (prompt_not_thinking _ Htxt).
Qed.

(** Without an effective mailbox, the prompt is posted with the credential
    of the first mailbox, and nothing else is called. *)
Lemma route_asks (event : Event.t) (mailboxInfo : SlackMailboxInfo)
    (t : AgentThread.t) (text : string) (w0 : World)
    (first : Mailbox.t) (token : string) :
  effectiveMailbox mailboxInfo t = None ->
  nth_error (mailboxes mailboxInfo) 0 = Some first ->
  Mailbox.slackBotToken first = Some token ->
  world (route event mailboxInfo t text w0)
  = logged
      (ChatPostMessage token (Event.channel event) (threadRoot event)
         (whichMailboxPrompt WHICH_MAILBOX_MESSAGE (mailboxes mailboxInfo)))
      w0.
Proof.
  intros Ecur Hfirst Htoken. unfold routeMessage.
  fold (effectiveMailbox mailboxInfo t). rewrite Ecur.
  apply (post_run (askWhichMailbox _ _ _ _) w0 (fun _ w' => w' = _)).
  unfold askWhichMailbox. rewrite Hfirst, Htoken. wp; reflexivity.
Qed.

(** Without an effective mailbox and without a credential for the first
    mailbox, routing fails before any call. *)
Lemma route_cannot_ask (event : Event.t) (mailboxInfo : SlackMailboxInfo)
    (t : AgentThread.t) (text : string) (w0 : World) :
  effectiveMailbox mailboxInfo t = None ->
  match nth_error (mailboxes mailboxInfo) 0 with
  | Some first => Mailbox.slackBotToken first
  | None => None
  end = None ->
  route event mailboxInfo t text w0 = (Thrown NotDefined, w0).
Proof.
  intros Ecur Hnone. unfold routeMessage.
  fold (effectiveMailbox mailboxInfo t). rewrite Ecur.
  unfold askWhichMailbox, bind. now rewrite Hnone.
Qed.

End Calls.

(** * [handleMessage]: whole deliveries *)

Section Deliveries.

Variable slack : SlackApi.
Variable WHICH_MAILBOX_MESSAGE : string.
Variable toLowerCase : string -> string.

Local Abbreviation handle :=
  (handleMessage slack WHICH_MAILBOX_MESSAGE toLowerCase).
Local Abbreviation route :=
  (routeMessage slack WHICH_MAILBOX_MESSAGE toLowerCase).

Lemma log_resolved (w : World) (event : Event.t) :
  exists ops,
    log (resolved w event) = (log w ++ ops)%list
    /\ forallb isDbCall ops = true.
Proof.
  unfold resolved.
  destruct (find _ (agentThreads w)); cbn [log logged].
  - now exists [DbFindFirstThread (Event.channel event) (threadRoot event)].
  - rewrite <- app_assoc. now eexists.
Qed.

Lemma log_recorded (w : World) (event : Event.t) (text : string) :
  exists ops,
    log (recorded w event text) = (log w ++ ops)%list
    /\ forallb isDbCall ops = true.
Proof.
  destruct (log_resolved w event) as (ops & Hlog & Hdb).
  exists (ops ++ [insertOp w event text])%list. split.
  - cbn [recorded log]. now rewrite Hlog, <- app_assoc.
  - rewrite forallb_app, Hdb. reflexivity.
Qed.

Lemma in_db_calls (ops : list Op) (op : Op) :
  forallb isDbCall ops = true -> In op ops -> isDbCall op = true.
Proof. intros H. rewrite forallb_forall in H. apply H. Qed.

Lemma in_after_db_calls (dbOps ops : list Op) (op : Op) :
  forallb isDbCall dbOps = true -> isDbCall op = false ->
  In op (dbOps ++ ops) <-> In op ops.
Proof.
  intros Hdb Hop. rewrite in_app_iff. split; [|now right].
  intros [H|H]; [|assumption].
  apply (in_db_calls _ _ Hdb) in H. congruence.
Qed.

Lemma split_after_db_calls (dbOps ops pre rest : list Op) (op : Op) :
  forallb isDbCall dbOps = true -> isDbCall op = false ->
  (dbOps ++ ops = pre ++ op :: rest)%list ->
  exists pre',
    pre = (dbOps ++ pre')%list /\ ops = (pre' ++ op :: rest)%list.
Proof.
  revert pre; induction dbOps as [|d dbOps IH]; intros pre Hdb Hop H.
  - now exists pre.
  - cbn [forallb] in Hdb. apply andb_true_iff in Hdb as [Hd Hdb].
    destruct pre as [|p pre]; cbn [app] in H; injection H as -> H.
    + congruence.
    + destruct (IH pre Hdb Hop H) as (pre' & -> & ->). now exists pre'.
Qed.

(** The calls of a delivery that is not routed are calls to the
    persistence layer. *)
Lemma unrouted_calls (event : Event.t) (mailboxInfo : SlackMailboxInfo)
    (w : World) :
  hasBotMarker event \/ ~ hasText event \/ alreadyRecorded w event = true ->
  forallb isDbCall (newOps w (world (handle event mailboxInfo w))) = true.
Proof.
  intros Hwhy.
  destruct (handleMessage_cases slack WHICH_MAILBOX_MESSAGE toLowerCase event
              mailboxInfo w)
    as [[_ ->] | [(_ & _ & ->) | [(_ & text & _ & _ & _ & ->)
                                 | (Hbot & text & Ht & Hne & Hdup & _)]]];
    cbn [world snd].
  - now rewrite newOps_refl.
  - destruct (log_resolved w event) as (ops & Hlog & Hdb).
    now rewrite (newOps_app _ _ _ Hlog).
  - destruct (log_resolved w event) as (ops & Hlog & Hdb).
    erewrite newOps_app
      by (cbn [log logged]; rewrite Hlog, <- app_assoc; reflexivity).
    rewrite forallb_app, Hdb. reflexivity.
  - destruct Hwhy as [H | [H | H]]; [contradiction | | congruence].
    contradiction H. now exists text.
Qed.

(** The calls of a delivery that is routed: calls to the persistence
    layer, then the calls of the routing. *)
Lemma routed_calls (event : Event.t) (mailboxInfo : SlackMailboxInfo)
    (w : World) (text : string) (ops : list Op) :
  ~ hasBotMarker event ->
  Event.text event = Some text -> text <> "" ->
  alreadyRecorded w event = false ->
  log (world (route event mailboxInfo (threadFor w event) text
                (recorded w event text)))
  = (log (recorded w event text) ++ ops)%list ->
  exists dbOps,
    log (recorded w event text) = (log w ++ dbOps)%list
    /\ forallb isDbCall dbOps = true
    /\ newOps w (world (handle event mailboxInfo w)) = (dbOps ++ ops)%list.
Proof.
  intros Hbot Ht Hne Hdup Hlog.
  destruct (log_recorded w event text) as (dbOps & Hrec & Hdb).
  exists dbOps. repeat split; try assumption.
  rewrite (handleMessage_routes slack WHICH_MAILBOX_MESSAGE toLowerCase _ _ _ _
             Hbot Ht Hne Hdup).
  apply newOps_app. now rewrite Hlog, Hrec, <- app_assoc.
Qed.

(** C9: for an event with a bot marker (a bot id, or a bot profile),
    [handleMessage] returns at once: the tables and the log are those it
    started from, so it made no call to the persistence layer, to Slack or
    to the job queue. *)
Theorem handleMessage_ignores_bots (event : Event.t)
    (mailboxInfo : SlackMailboxInfo) (w : World) :
  hasBotMarker event ->
  handle event mailboxInfo w = (Normal tt, w)
  /\ newOps w (world (handle event mailboxInfo w)) = [].
Proof.
  intros Hbot.
  rewrite (handleMessage_bot slack WHICH_MAILBOX_MESSAGE toLowerCase
             _ _ _ Hbot).
  split; [reflexivity | apply newOps_refl].
Qed.

(** C3, as the code has it: [handleMessage] posts the "switched" notice
    exactly when the message is routed and a mention override with a
    credential is found, more than one mailbox being listed, whether the
    Thread was bound before or not; the notice names the mentioned mailbox
    and is posted with its credential.  A Thread with no bound mailbox and
    no mention override has its binding persisted without any notice. *)
Theorem switch_notice_iff_mention (event : Event.t)
    (mailboxInfo : SlackMailboxInfo) (w : World) :
  let ops := newOps w (world (handle event mailboxInfo w)) in
  let t := threadFor w event in
  let noticed :=
    exists token mailboxName,
      In (ChatPostMessage token (Event.channel event) (threadRoot event)
            (switchNotice mailboxName)) ops in
  (noticed
   <-> ~ hasBotMarker event /\ alreadyRecorded w event = false
       /\ exists text current m token,
            Event.text event = Some text /\ text <> ""
            /\ effectiveMailbox mailboxInfo t = Some current
            /\ findMentionedMailbox toLowerCase text
                 (mailboxes mailboxInfo) current
               = Some m
            /\ Mailbox.slackBotToken m = Some token
            /\ (1 < List.length (mailboxes mailboxInfo))%nat)
  /\ (forall text current m token,
         ~ hasBotMarker event -> alreadyRecorded w event = false ->
         Event.text event = Some text -> text <> "" ->
         effectiveMailbox mailboxInfo t = Some current ->
         findMentionedMailbox toLowerCase text (mailboxes mailboxInfo) current
         = Some m ->
         Mailbox.slackBotToken m = Some token ->
         In (ChatPostMessage token (Event.channel event) (threadRoot event)
               (switchNotice (Mailbox.name m))) ops)
  /\ (forall text current,
         ~ hasBotMarker event -> alreadyRecorded w event = false ->
         Event.text event = Some text -> text <> "" ->
         Js.truthyNum (AgentThread.mailboxId t) = false ->
         effectiveMailbox mailboxInfo t = Some current ->
         findMentionedMailbox toLowerCase text (mailboxes mailboxInfo) current
         = None ->
         In (DbUpdateThread (AgentThread.id t) (Mailbox.id current)) ops
         /\ ~ noticed).
Proof.
  intros ops t noticed.
  assert (Hiff :
    noticed
    <-> ~ hasBotMarker event /\ alreadyRecorded w event = false
        /\ exists text current m token,
             Event.text event = Some text /\ text <> ""
             /\ effectiveMailbox mailboxInfo t = Some current
             /\ findMentionedMailbox toLowerCase text
                  (mailboxes mailboxInfo) current
                = Some m
             /\ Mailbox.slackBotToken m = Some token
             /\ (1 < List.length (mailboxes mailboxInfo))%nat).
  { destruct (handleMessage_cases slack WHICH_MAILBOX_MESSAGE toLowerCase event
                mailboxInfo w)
      as [[Hbot _] | [(_ & Hnt & _) | [(_ & text & _ & _ & Hdup & _)
                                      | (Hbot & text & Ht & Hne & Hdup & _)]]].
    1-3: split;
      [ intros (token & name & Hin);
        apply (in_db_calls _ _ (unrouted_calls event mailboxInfo w
                                  ltac:(tauto))) in Hin;
        discriminate
      | intros (Hb & Hd & text' & current & m & token & Ht' & Hne' & _) ].
    - contradiction.
    - contradiction Hnt. now exists text'.
    - congruence.
    - destruct (route_notice slack WHICH_MAILBOX_MESSAGE toLowerCase
                  event mailboxInfo t text (recorded w event text))
        as (rops & Hlog & Hnotice & _).
      destruct (routed_calls _ _ _ _ _ Hbot Ht Hne Hdup Hlog)
        as (dbOps & _ & Hdb & Hops).
      subst noticed ops. rewrite Hops.
      split.
      + intros (token & name & Hin).
        apply in_after_db_calls in Hin; [|assumption|reflexivity].
        destruct (proj1 Hnotice (ex_intro _ token (ex_intro _ name Hin)))
          as (current & m & token' & H1 & H2 & H3).
        repeat split; try assumption.
        exists text, current, m, token'. repeat split; try assumption.
        now apply (findMentionedMailbox_Some _ _ _ _ _ H2).
      + intros (_ & _ & text' & current & m & token & Ht' & _ & H1 & H2 & H3
                & _).
        assert (text' = text) by congruence. subst text'.
        destruct (proj2 Hnotice
                    (ex_intro _ current
                       (ex_intro _ m (ex_intro _ token
                          (conj H1 (conj H2 H3))))))
          as (token' & name & Hin).
        exists token', name.
        apply in_after_db_calls; [assumption|reflexivity|assumption]. }
  split; [exact Hiff|]. split.
  - intros text current m token Hbot Hdup Ht Hne H1 H2 H3.
    destruct (route_notice slack WHICH_MAILBOX_MESSAGE toLowerCase
                event mailboxInfo t text (recorded w event text))
      as (rops & Hlog & _ & Hposted).
    destruct (routed_calls _ _ _ _ _ Hbot Ht Hne Hdup Hlog)
      as (dbOps & _ & Hdb & Hops).
    subst ops. rewrite Hops. apply in_or_app. right.
    now apply (Hposted current m token).
  - intros text current Hbot Hdup Ht Hne Hunbound Hcur Hnone. split.
    + destruct (route_first_binding slack WHICH_MAILBOX_MESSAGE toLowerCase
                  event mailboxInfo t text (recorded w event text) current
                  Hunbound Hcur Hnone)
        as (rops & Hlog & Hin).
      destruct (routed_calls _ _ _ _ _ Hbot Ht Hne Hdup Hlog)
        as (dbOps & _ & Hdb & Hops).
      subst ops. rewrite Hops. apply in_or_app. now right.
    + rewrite Hiff.
      intros (_ & _ & text' & current' & m & token & Ht' & _ & H1 & H2 & _).
      congruence.
Qed.

(** C7, as the code has it: for an event with text and a new Message row,
    when the mailbox id of the Thread is the id of no listed mailbox and
    no mailbox is selected, and the first listed mailbox has a credential,
    [handleMessage] posts, with that credential, the prompt followed by
    the names of all listed mailboxes joined by ["/"]; the post is its
    last call, and every call before it is to the persistence layer, so no
    job is enqueued. *)
Theorem asks_which_mailbox (event : Event.t) (mailboxInfo : SlackMailboxInfo)
    (w : World) (text : string) (first : Mailbox.t) (token : string) :
  ~ hasBotMarker event ->
  Event.text event = Some text -> text <> "" ->
  alreadyRecorded w event = false ->
  find (isMailboxId (AgentThread.mailboxId (threadFor w event)))
    (mailboxes mailboxInfo) = None ->
  currentMailbox mailboxInfo = None ->
  nth_error (mailboxes mailboxInfo) 0 = Some first ->
  Mailbox.slackBotToken first = Some token ->
  let ops := newOps w (world (handle event mailboxInfo w)) in
  exists dbOps,
    ops
    = (dbOps
       ++ [ChatPostMessage token (Event.channel event) (threadRoot event)
             (WHICH_MAILBOX_MESSAGE ++ " ("
              ++ String.concat "/"
                   (map Mailbox.name (mailboxes mailboxInfo))
              ++ ")")])%list
    /\ forallb isDbCall dbOps = true
    /\ existsb isTriggerEvent ops = false.
Proof.
  intros Hbot Ht Hne Hdup Hfind Hcur Hfirst Htoken ops.
  assert (Heff : effectiveMailbox mailboxInfo (threadFor w event) = None).
  { unfold effectiveMailbox. now rewrite Hfind, Hcur. }
  pose proof (route_asks slack WHICH_MAILBOX_MESSAGE toLowerCase
                event mailboxInfo
                (threadFor w event) text (recorded w event text) first token
                Heff Hfirst Htoken) as Hw.
  assert (Hlog : log (world (route event mailboxInfo (threadFor w event) text
                               (recorded w event text)))
                 = (log (recorded w event text)
                    ++ [ChatPostMessage token (Event.channel event)
                          (threadRoot event)
                          (whichMailboxPrompt WHICH_MAILBOX_MESSAGE
                             (mailboxes mailboxInfo))])%list)
    by now rewrite Hw.
  destruct (routed_calls _ _ _ _ _ Hbot Ht Hne Hdup Hlog)
    as (dbOps & _ & Hdb & Hops).
  exists dbOps. subst ops. rewrite Hops. repeat split; try assumption.
  rewrite existsb_app. destruct (only_db_calls _ Hdb) as [-> _].
  reflexivity.
Qed.

(** Without a credential for the first mailbox there is no prompt: the
    handler fails, having called the persistence layer only. *)
Lemma cannot_ask_which_mailbox (event : Event.t)
    (mailboxInfo : SlackMailboxInfo) (w : World) (text : string) :
  ~ hasBotMarker event ->
  Event.text event = Some text -> text <> "" ->
  alreadyRecorded w event = false ->
  effectiveMailbox mailboxInfo (threadFor w event) = None ->
  match nth_error (mailboxes mailboxInfo) 0 with
  | Some first => Mailbox.slackBotToken first
  | None => None
  end = None ->
  result (handle event mailboxInfo w) = Thrown NotDefined
  /\ forallb isDbCall (newOps w (world (handle event mailboxInfo w))) = true.
Proof.
  intros Hbot Ht Hne Hdup Heff Hnone.
  rewrite (handleMessage_routes slack WHICH_MAILBOX_MESSAGE toLowerCase _ _ _ _
             Hbot Ht Hne Hdup).
  rewrite (route_cannot_ask slack WHICH_MAILBOX_MESSAGE toLowerCase
             _ _ _ _ _ Heff Hnone).
  split; [reflexivity|]. cbn [world snd].
  destruct (log_recorded w event text) as (dbOps & Hrec & Hdb).
  now rewrite (newOps_app _ _ _ Hrec).
Qed.

(** C8: whenever [handleMessage] posts the placeholder and the response to
    that post has no timestamp, it throws ["Failed to post initial
    message"]; the post is the last call it made, and none of the calls
    before it enqueued the job. *)
Theorem placeholder_without_timestamp (event : Event.t)
    (mailboxInfo : SlackMailboxInfo) (w : World)
    (pre rest : list Op) (token : string) :
  let r := handle event mailboxInfo w in
  newOps w (world r) = (pre ++ placeholder token event :: rest)%list ->
  noTimestamp
    (postMessage slack (log w ++ pre) token (Event.channel event)
       (threadRoot event) "_Thinking..._") ->
  result r = Thrown (Error "Failed to post initial message")
  /\ rest = []
  /\ existsb isTriggerEvent pre = false.
Proof.
  intros r Hops Hno.
  destruct (handleMessage_cases slack WHICH_MAILBOX_MESSAGE toLowerCase event
              mailboxInfo w)
    as [[Hbot _] | [(_ & Hnt & _) | [(_ & text & _ & _ & Hdup & _)
                                    | (Hbot & text & Ht & Hne & Hdup & _)]]].
  1-3: assert (Hdb :
         forallb isDbCall
           (newOps w (world (handle event mailboxInfo w))) = true)
         by (apply unrouted_calls; tauto);
       subst r; rewrite Hops in Hdb;
       apply (in_db_calls _ (placeholder token event)) in Hdb;
       [discriminate | apply in_or_app; right; now left].
  destruct (route_placeholder slack WHICH_MAILBOX_MESSAGE toLowerCase
              event mailboxInfo
              (threadFor w event) text (recorded w event text))
    as (rops & Hlog & Hfails).
  destruct (routed_calls _ _ _ _ _ Hbot Ht Hne Hdup Hlog)
    as (dbOps & Hrec & Hdb & Hall).
  subst r. rewrite Hall in Hops.
  apply split_after_db_calls in Hops as (pre' & -> & Hrops);
    [|assumption|reflexivity].
  rewrite app_assoc, <- Hrec in Hno.
  destruct (Hfails pre' token rest Hrops Hno) as (Hr & Hrest & Hpre).
  rewrite (handleMessage_routes slack WHICH_MAILBOX_MESSAGE toLowerCase _ _ _ _
             Hbot Ht Hne Hdup).
  repeat split; try assumption.
  rewrite existsb_app, Hpre. destruct (only_db_calls _ Hdb) as [-> _].
  reflexivity.
Qed.

(** What the code does at the placeholder step: the post is made with the
    credential of the effective mailbox, the one the Thread was routed to
    before the text was searched for a mention. *)
Lemma placeholder_credential (event : Event.t)
    (mailboxInfo : SlackMailboxInfo) (w : World) (token : string) :
  In (placeholder token event)
    (newOps w (world (handle event mailboxInfo w))) ->
  exists current,
    effectiveMailbox mailboxInfo (threadFor w event) = Some current
    /\ Mailbox.slackBotToken current = Some token.
Proof.
  intros Hin.
  destruct (handleMessage_cases slack WHICH_MAILBOX_MESSAGE toLowerCase event
              mailboxInfo w)
    as [[Hbot _] | [(_ & Hnt & _) | [(_ & text & _ & _ & Hdup & _)
                                    | (Hbot & text & Ht & Hne & Hdup & _)]]].
  1-3: apply (in_db_calls _ _ (unrouted_calls event mailboxInfo w
                                 ltac:(tauto))) in Hin;
       discriminate.
  destruct (route_placeholder_credential slack WHICH_MAILBOX_MESSAGE toLowerCase
              event
              mailboxInfo (threadFor w event) text (recorded w event text))
    as (rops & Hlog & Hcred).
  destruct (routed_calls _ _ _ _ _ Hbot Ht Hne Hdup Hlog)
    as (dbOps & _ & Hdb & Hops).
  rewrite Hops in Hin.
  apply in_after_db_calls in Hin; [|assumption|reflexivity].
  now apply Hcred.
Qed.

End Deliveries.

(** * The primary key of the Thread table *)

Section Keys.

Variable slack : SlackApi.
Variable WHICH_MAILBOX_MESSAGE : string.
Variable toLowerCase : string -> string.

Local Abbreviation handle :=
  (handleMessage slack WHICH_MAILBOX_MESSAGE toLowerCase).
Local Abbreviation route :=
  (routeMessage slack WHICH_MAILBOX_MESSAGE toLowerCase).

Lemma map_id_setMailboxId (threadId mailboxId : Z) (l : list AgentThread.t) :
  map AgentThread.id (map (setMailboxId threadId mailboxId) l)
  = map AgentThread.id l.
Proof.
  rewrite map_map. apply map_ext. intros t. apply id_setMailboxId.
Qed.

Lemma primaryKey_same (w w' : World) :
  map AgentThread.id (agentThreads w') = map AgentThread.id (agentThreads w) ->
  nextThreadId w' = nextThreadId w ->
  primaryKey w -> primaryKey w'.
Proof.
  intros Hids Hnext [Hnd Hlt]. split.
  - now rewrite Hids.
  - rewrite Forall_forall in *. intros t Hin. rewrite Hnext.
    apply (in_map AgentThread.id) in Hin. rewrite Hids in Hin.
    apply in_map_iff in Hin as (t0 & <- & Hin0). now apply Hlt.
Qed.

Lemma primaryKey_resolved (w : World) (event : Event.t) :
  primaryKey w -> primaryKey (resolved w event).
Proof.
  intros Hkey. unfold resolved, threadFor.
  destruct (find _ (agentThreads w)) as [t|].
  - now apply (primaryKey_same w).
  - destruct Hkey as [Hnd Hlt]. split; cbn [agentThreads nextThreadId].
    + rewrite map_app. cbn [map AgentThread.id].
      apply NoDup_app; [assumption | repeat constructor; intros [] |].
      intros i Hin [<-|[]]. rewrite Forall_forall in Hlt.
      apply in_map_iff in Hin as (t & Hid & Hin). apply Hlt in Hin. lia.
    + apply Forall_app. split.
      * eapply Forall_impl; [|exact Hlt]. cbn beta. intros t Ht. lia.
      * repeat constructor. cbn [AgentThread.id]. lia.
Qed.

(** The primary key is an invariant of the handler. *)
Lemma primaryKey_handleMessage (event : Event.t)
    (mailboxInfo : SlackMailboxInfo) (w : World) :
  primaryKey w -> primaryKey (world (handle event mailboxInfo w)).
Proof.
  intros Hkey. pose proof (primaryKey_resolved w event Hkey) as Hres.
  destruct (handleMessage_cases slack WHICH_MAILBOX_MESSAGE toLowerCase event
              mailboxInfo w)
    as [[_ ->] | [(_ & _ & ->) | [(_ & text & _ & _ & _ & ->)
                                 | (_ & text & _ & _ & _ & ->)]]];
    cbn [world snd]; try assumption.
  destruct (route_tables slack WHICH_MAILBOX_MESSAGE toLowerCase
              event mailboxInfo
                (threadFor w event) text (recorded w event text))
      as (_ & Hnext & [Ht | (current & m & _ & Ht & _)]);
      apply (primaryKey_same (resolved w event)); try assumption;
      unfold world in *; rewrite ?Ht, ?Hnext, ?map_id_setMailboxId;
      reflexivity.
Qed.

(** X17: ids stay a primary key of the Thread table, below the next value
    of the identity sequence, through any number of deliveries. *)
Lemma primaryKey_deliverAll (deliveries : list (Event.t * SlackMailboxInfo))
    (w : World) :
  primaryKey w ->
  primaryKey (deliverAll slack WHICH_MAILBOX_MESSAGE toLowerCase deliveries w).
Proof.
  revert w; induction deliveries as [|[event mailboxInfo] rest IH];
    intros w Hkey; cbn [deliverAll]; [assumption|].
  now apply IH, primaryKey_handleMessage.
Qed.

End Keys.

(** * The statements at sample inputs *)

Lemma opening_no_marker (text : string) : ~ hasBotMarker (Sample.opening text).
Proof. intros [(b & H & _) | (p & H)]; discriminate. Qed.

Lemma reply_no_marker (text : string) : ~ hasBotMarker (Sample.reply text).
Proof. intros [(b & H & _) | (p & H)]; discriminate. Qed.

Lemma reply_passes_guards :
  passesGuards (Sample.reply "any news?") Sample.oneMailbox
    "xoxb-support" "U0SUPPORT" "1700000100.000100".
Proof.
  repeat split; try discriminate.
  - now exists Sample.support.
  - intros text H. injection H as <-. now apply includes_false.
Qed.

(** A re-delivery of the opening message, after a reply was handled. *)
Lemma redelivery_is_dropped_witness :
  let w1 :=
    deliverAll (Sample.api []) Sample.prompt Js.toLowerCase
      [(Sample.opening "hello", Sample.oneMailbox);
       (Sample.reply "any news?", Sample.oneMailbox)] Sample.empty in
  let r :=
    handleMessage (Sample.api []) Sample.prompt Js.toLowerCase
      (Sample.opening "hello") Sample.oneMailbox w1 in
  uniqueRoots Sample.empty
  /\ redelivery (Sample.opening "hello") (Sample.opening "hello")
  /\ result r = Normal tt
  /\ agentThreads (world r) = agentThreads w1
  /\ agentMessages (world r) = agentMessages w1
  /\ existsb isTriggerEvent (newOps w1 (world r)) = false
  /\ existsb isSlackCall (newOps w1 (world r)) = false.
Proof.
  assert (Hroots : uniqueRoots Sample.empty) by constructor.
  assert (H : redelivery (Sample.opening "hello") (Sample.opening "hello"))
    by (repeat split; auto).
  split; [exact Hroots|]. split; [exact H|].
  exact (redelivery_is_dropped (Sample.api []) Sample.prompt Js.toLowerCase
           Sample.empty (Sample.opening "hello") Sample.oneMailbox
           [(Sample.reply "any news?", Sample.oneMailbox)]
           (Sample.opening "hello") Sample.oneMailbox Hroots H).
Defined.

(** A reply that names the Billing mailbox, in a Thread bound to Support. *)
Lemma binding_transitions_witness :
  primaryKey Sample.bound
  /\ exists updated added : list AgentThread.t,
       agentThreads
         (world
            (handleMessage (Sample.api []) Sample.prompt Js.toLowerCase
               (Sample.reply "please ask billing") Sample.twoMailboxes
               Sample.bound))
       = (updated ++ added)%list
       /\ Forall2
            (bindingStep Js.toLowerCase (Sample.reply "please ask billing")
               Sample.twoMailboxes)
            (agentThreads Sample.bound) updated.
Proof.
  assert (H : primaryKey Sample.bound).
  { split; cbn.
    - repeat constructor. intros [].
    - repeat constructor. }
  split; [exact H|].
  exact (binding_transitions (Sample.api []) Sample.prompt Js.toLowerCase
           (Sample.reply "please ask billing") Sample.twoMailboxes
           Sample.bound H).
Defined.

(** A thread in which a user mentions the bot. *)
Lemma isAgentThread_answer_witness :
  result
    (isAgentThread
       (Sample.api [Reply.mk (Some "U1") (Some "hi <@U0SUPPORT>, a question")])
       (Sample.reply "any news?") Sample.oneMailbox Sample.empty)
  = Normal true.
Proof.
  destruct (isAgentThread_answer
              (Sample.api
                 [Reply.mk (Some "U1") (Some "hi <@U0SUPPORT>, a question")])
              (Sample.reply "any news?") Sample.oneMailbox Sample.empty
              "xoxb-support" "U0SUPPORT" "1700000100.000100" _
              reply_passes_guards eq_refl)
    as (answer & Hrun & Hmention & _).
  rewrite Hrun. cbn [result fst]. f_equal. apply Hmention.
  eexists. split; [now left|]. split; [discriminate|].
  eexists. split; [reflexivity|]. now exists "hi ", ", a question".
Defined.

(** A reply marked as an aside, in upper case. *)
Lemma isAgentThread_guards_witness :
  markedAside (Sample.reply "(ASIDE) lunch?")
  /\ isAgentThread
       (Sample.api [Reply.mk (Some "U1") (Some "hi <@U0SUPPORT>")])
       (Sample.reply "(ASIDE) lunch?") Sample.oneMailbox Sample.empty
     = (Normal false, Sample.empty).
Proof.
  assert (H : markedAside (Sample.reply "(ASIDE) lunch?")).
  { exists "(ASIDE) lunch?", "(ASIDE)". repeat split.
    now exists "", " lunch?". }
  split; [exact H|].
  apply isAgentThread_guards. right. right. exact H.
Defined.

(** A thread that holds the bot's opening message only. *)
Lemma isAgentThread_single_message_witness :
  result
    (isAgentThread
       (Sample.api [Reply.mk (Some "U0SUPPORT") (Some "A ticket came in")])
       (Sample.reply "any news?") Sample.oneMailbox Sample.empty)
  = Normal true.
Proof.
  exact (isAgentThread_single_message
           (Sample.api
              [Reply.mk (Some "U0SUPPORT") (Some "A ticket came in")])
           (Sample.reply "any news?") Sample.oneMailbox Sample.empty
           "xoxb-support" "U0SUPPORT" "1700000100.000100" _
           reply_passes_guards eq_refl eq_refl).
Defined.

(** Two mailboxes, none selected, and a Thread that is new. *)
Lemma asks_which_mailbox_witness :
  exists dbOps,
    newOps Sample.empty
      (world
         (handleMessage (Sample.api []) Sample.prompt Js.toLowerCase
            (Sample.opening "hello") Sample.noneSelected Sample.empty))
    = (dbOps
       ++ [ChatPostMessage "xoxb-support" "C1" "1700000100.000100"
             "Which mailbox is this about? (Support/Billing)"])%list
    /\ forallb isDbCall dbOps = true
    /\ existsb isTriggerEvent
         (newOps Sample.empty
            (world
               (handleMessage (Sample.api []) Sample.prompt Js.toLowerCase
                  (Sample.opening "hello") Sample.noneSelected
                  Sample.empty)))
       = false.
Proof.
  exact (asks_which_mailbox (Sample.api []) Sample.prompt Js.toLowerCase
           (Sample.opening "hello") Sample.noneSelected Sample.empty
           "hello" Sample.support "xoxb-support"
           (opening_no_marker "hello") eq_refl
           ltac:(discriminate) eq_refl eq_refl eq_refl eq_refl eq_refl).
Defined.

(** An API whose responses carry no timestamp. *)
Lemma placeholder_without_timestamp_witness :
  result
    (handleMessage Sample.mute Sample.prompt Js.toLowerCase
       (Sample.opening "hello")
       Sample.oneMailbox Sample.empty)
  = Thrown (Error "Failed to post initial message")
  /\ existsb isTriggerEvent
       (newOps Sample.empty
          (world
             (handleMessage Sample.mute Sample.prompt Js.toLowerCase
                (Sample.opening "hello") Sample.oneMailbox Sample.empty)))
     = false.
Proof.
  destruct (placeholder_without_timestamp Sample.mute Sample.prompt
              Js.toLowerCase
              (Sample.opening "hello") Sample.oneMailbox Sample.empty
              [DbFindFirstThread "C1" "1700000100.000100";
               DbInsertThread "C1" "1700000100.000100";
               DbInsertMessage 1 "user" "hello" "C1" "1700000100.000100";
               DbUpdateThread 1 1]
              [] "xoxb-support" eq_refl (or_introl eq_refl))
    as (Hr & _ & _).
  split; [exact Hr | reflexivity].
Defined.

(** A message posted by a bot. *)
Lemma handleMessage_ignores_bots_witness :
  hasBotMarker Sample.fromBot
  /\ handleMessage (Sample.api []) Sample.prompt Js.toLowerCase Sample.fromBot
       Sample.oneMailbox Sample.empty
     = (Normal tt, Sample.empty).
Proof.
  assert (H : hasBotMarker Sample.fromBot).
  { left. exists "B1". split; [reflexivity | discriminate]. }
  split; [exact H|].
  exact (proj1 (handleMessage_ignores_bots (Sample.api []) Sample.prompt
                  Js.toLowerCase
                  Sample.fromBot Sample.oneMailbox Sample.empty H)).
Defined.

(** C3 fails as stated: a Thread that has no mailbox yet, two mailboxes,
    Support selected, and a text that names Billing.  This is a first
    binding, and the notice is posted. *)
Lemma first_binding_posts_notice :
  AgentThread.mailboxId
    (threadFor Sample.empty (Sample.opening "a question for billing"))
  = None
  /\ In (ChatPostMessage "xoxb-billing" "C1" "1700000100.000100"
           "_Switched to the Billing mailbox_")
       (newOps Sample.empty
          (world
             (handleMessage (Sample.api []) Sample.prompt Js.toLowerCase
                (Sample.opening "a question for billing")
                Sample.twoMailboxes Sample.empty))).
Proof.
  split; [reflexivity|]. vm_compute.
  right. right. right. right. left. reflexivity.
Qed.

(** C7 fails as stated: an event with text and a new Message row, no
    mailbox listed and none selected.  No prompt is posted: the handler
    throws before any call to Slack. *)
Lemma no_mailbox_no_prompt :
  let event := Sample.opening "hello" in
  let r :=
    handleMessage (Sample.api []) Sample.prompt Js.toLowerCase
      event Sample.noMailbox
      Sample.empty in
  Event.text event = Some "hello"
  /\ alreadyRecorded Sample.empty event = false
  /\ find (isMailboxId (AgentThread.mailboxId (threadFor Sample.empty event)))
       (mailboxes Sample.noMailbox) = None
  /\ currentMailbox Sample.noMailbox = None
  /\ result r = Thrown NotDefined
  /\ existsb isSlackCall (newOps Sample.empty (world r)) = false.
Proof. repeat split. Qed.

(** C4 at a failing input: a Thread bound to Support, and a reply that
    names Billing.  The Thread is rebound to Billing and the notice is
    posted with the credential of Billing; the placeholder that follows is
    posted with the credential of Support. *)
Example placeholder_uses_previous_credential :
  let r :=
    handleMessage (Sample.api []) Sample.prompt Js.toLowerCase
      (Sample.reply "please ask billing") Sample.twoMailboxes Sample.bound in
  newOps Sample.bound (world r)
  = [DbFindFirstThread "C1" "1700000100.000100";
     DbInsertMessage 1 "user" "please ask billing" "C1" "1700000150.000100";
     DbUpdateThread 1 2;
     ChatPostMessage "xoxb-billing" "C1" "1700000100.000100"
       "_Switched to the Billing mailbox_";
     ChatPostMessage "xoxb-support" "C1" "1700000100.000100" "_Thinking..._";
     TriggerEvent "slack/agent.message"
       {| slackUserId := Some "U1";
          statusMessageTs := "1700000200.000100";
          agentThreadId := 1 |}]
  /\ map AgentThread.mailboxId (agentThreads (world r)) = [Some 2].
Proof. split; reflexivity. Qed.

(** * Further properties of the handlers *)

Section Mentions.

Variable toLowerCase : string -> string.

Lemma mentions_test (text : string) (current m : Mailbox.t) :
  negb (Mailbox.id m =? Mailbox.id current)
  && Js.includes (toLowerCase text) (toLowerCase (Mailbox.name m))
  = true
  <-> mentions toLowerCase text current m.
Proof.
  unfold mentions.
  now rewrite andb_true_iff, negb_true_iff, Z.eqb_neq, includes_contains.
Qed.

(** X2: a listed mailbox without a name, other than the current one, is
    mentioned by every text: with more than one mailbox listed, a mention
    is then always found.  Of the case mapping this takes that it maps the
    empty string to itself. *)
Theorem unnamed_mailbox_is_always_mentioned (text : string)
    (mailboxes : list Mailbox.t) (current m : Mailbox.t) :
  toLowerCase "" = "" ->
  (1 < List.length mailboxes)%nat ->
  In m mailboxes ->
  Mailbox.name m = "" ->
  Mailbox.id m <> Mailbox.id current ->
  exists found,
    findMentionedMailbox toLowerCase text mailboxes current = Some found.
Proof.
  intros Hempty Hlen Hin Hname Hid. unfold findMentionedMailbox.
  apply Nat.leb_gt in Hlen. rewrite Hlen.
  destruct (find _ mailboxes) as [found|] eqn:E; [now exists found|].
  exfalso. apply (find_none _ _ E) in Hin.
  apply not_true_iff_false in Hin. apply Hin, mentions_test.
  split; [assumption|]. rewrite Hname, Hempty.
  now exists "", (toLowerCase text).
Qed.

End Mentions.

Section Placeholder.

Variable slack : SlackApi.

(** X3: [postThinkingMessage] posts ["_Thinking..._"] once, to the given
    channel and thread, and returns the timestamp of the response exactly
    when the post resolved with a timestamp that is not empty. *)
Theorem postThinkingMessage_returns (client channel threadTs : string)
    (w : World) :
  let r := postThinkingMessage slack client channel threadTs w in
  world r = logged (ChatPostMessage client channel threadTs "_Thinking..._") w
  /\ forall ts,
       result r = Normal ts
       <-> postMessage slack (log w) client channel threadTs "_Thinking..._"
           = Resolved (Some ts)
           /\ ts <> "".
Proof.
  unfold postThinkingMessage, bind, chat_postMessage, result, world.
  destruct (postMessage slack (log w) client channel threadTs "_Thinking..._")
    as [[[|c ts']|]|reason]; cbn; (split; [reflexivity|]);
    intros ts; split; try discriminate; try (intros [H _]; discriminate).
  - intros [H Hne]. injection H as <-. contradiction.
  - intros H. injection H as <-. split; [reflexivity | discriminate].
  - intros [H _]. now injection H as <-.
Qed.

End Placeholder.

Section AgentThreadCalls.

Variable slack : SlackApi.

(** Either the guards let the event through, or the handler answers
    false on the spot. *)
Lemma guards_decided (event : Event.t) (mailboxInfo : SlackMailboxInfo) :
  (exists token botUserId thread_ts,
      passesGuards event mailboxInfo token botUserId thread_ts)
  \/ (~ (exists token botUserId thread_ts,
            passesGuards event mailboxInfo token botUserId thread_ts)
      /\ forall w, isAgentThread slack event mailboxInfo w = (Normal false, w)).
Proof.
  unfold isAgentThread.
  destruct (nth_error (mailboxes mailboxInfo) 0) as [mailbox|] eqn:E0.
  2: { right. split; [|reflexivity].
       intros (? & ? & ? & (? & H & _) & _). congruence. }
  destruct (nonEmpty (Mailbox.slackBotToken mailbox)) as [token|] eqn:Et.
  2: { right. split; [|reflexivity].
       intros (? & ? & ? & (? & H0 & Ht & _) & Hne & _).
       assert (x2 = mailbox) by congruence. subst x2.
       rewrite Ht, (nonEmpty_Some _ Hne) in Et. discriminate. }
  destruct (nonEmpty (Mailbox.slackBotUserId mailbox)) as [bot|] eqn:Eb.
  2: { right. split; [|reflexivity].
       intros (? & ? & ? & (? & H0 & _ & Hb) & _ & Hne & _).
       assert (x2 = mailbox) by congruence. subst x2.
       rewrite Hb, (nonEmpty_Some _ Hne) in Eb. discriminate. }
  destruct (nonEmpty (Event.thread_ts event)) as [thread_ts|] eqn:Ets.
  2: { right. split; [|reflexivity].
       intros (? & ? & ? & _ & _ & _ & Hts & Hne & _).
       rewrite Hts, (nonEmpty_Some _ Hne) in Ets. discriminate. }
  destruct (String.eqb thread_ts (Event.ts event)) eqn:Eeq.
  { right. split; [|reflexivity].
    intros (? & ? & ? & _ & _ & _ & Hts & Hne & Hneq & _).
    rewrite Hts, (nonEmpty_Some _ Hne) in Ets. injection Ets as ->.
    apply String.eqb_eq in Eeq. contradiction. }
  destruct (match Event.text event with Some _ => _ | None => _ end) eqn:Ea.
  { right. split; [|reflexivity].
    intros (? & ? & ? & _ & _ & _ & _ & _ & _ & Has).
    destruct (Event.text event) as [text|]; [|discriminate].
    apply includes_contains in Ea. now apply (Has text). }
  left. exists token, bot, thread_ts.
  apply nonEmpty_inv in Et as [Et Hnt], Eb as [Eb Hnb], Ets as [Ets Hnts].
  apply String.eqb_neq in Eeq.
  repeat split; try assumption.
  - now exists mailbox.
  - intros text Ht. rewrite Ht in Ea. now apply includes_false.
Qed.

(** Past the guards: one fetch, and the answer or the rejection. *)
Lemma isAgentThread_past_guards (event : Event.t)
    (mailboxInfo : SlackMailboxInfo) (w : World)
    (token botUserId thread_ts : string) :
  passesGuards event mailboxInfo token botUserId thread_ts ->
  isAgentThread slack event mailboxInfo w
  = (match
       replies slack (log w) token (Event.channel event) thread_ts 50
     with
     | Resolved response =>
         Normal (answerFor botUserId
                   match response with Some l => l | None => [] end)
     | Rejected reason => Thrown (Rejection reason)
     end,
     logged (ConversationsReplies token (Event.channel event) thread_ts 50)
       w).
Proof.
  intros Hguards.
  destruct (replies slack (log w) token (Event.channel event) thread_ts 50)
    as [response|reason] eqn:Hreplies.
  - now apply isAgentThread_fetches.
  - destruct Hguards as ((mailbox & Hfirst & Htoken & Hbot) & Hnt & Hnb & Hts
                         & Hne & Hneq & Haside).
    unfold isAgentThread. rewrite Hfirst, Htoken, Hbot, Hts.
    rewrite !nonEmpty_Some by assumption.
    apply String.eqb_neq in Hneq. rewrite Hneq.
    assert (Hno : match Event.text event with
                  | Some text => Js.includes (Js.toLowerCase text) "(aside)"
                  | None => false
                  end = false).
    { destruct (Event.text event) as [text|]; [|reflexivity].
      apply includes_false. now apply Haside. }
    rewrite Hno. unfold bind, conversations_replies. now rewrite Hreplies.
Qed.

Lemma passesGuards_unique (event : Event.t) (mailboxInfo : SlackMailboxInfo)
    (token token' botUserId botUserId' thread_ts thread_ts' : string) :
  passesGuards event mailboxInfo token botUserId thread_ts ->
  passesGuards event mailboxInfo token' botUserId' thread_ts' ->
  token = token' /\ botUserId = botUserId' /\ thread_ts = thread_ts'.
Proof.
  intros ((m & H0 & Ht & Hb) & _ & _ & Hts & _)
         ((m' & H0' & Ht' & Hb') & _ & _ & Hts' & _).
  assert (m' = m) by congruence. subst m'.
  repeat split; congruence.
Qed.

(** X4: [isAgentThread] only reads: it never changes a table, and it
    calls Slack exactly when the guards let the event through, with one
    [conversations.replies] request for the thread of the event, limit 50,
    made with the credential of the first mailbox; otherwise it answers
    false without any call. *)
Theorem isAgentThread_reads_only (event : Event.t)
    (mailboxInfo : SlackMailboxInfo) (w : World) :
  let r := isAgentThread slack event mailboxInfo w in
  agentThreads (world r) = agentThreads w
  /\ agentMessages (world r) = agentMessages w
  /\ ((~ (exists token botUserId thread_ts,
             passesGuards event mailboxInfo token botUserId thread_ts)
       /\ r = (Normal false, w))
      \/ exists token botUserId thread_ts,
           passesGuards event mailboxInfo token botUserId thread_ts
           /\ newOps w (world r)
              = [ConversationsReplies token (Event.channel event)
                   thread_ts 50]).
Proof.
  destruct (guards_decided event mailboxInfo)
    as [(token & bot & thread_ts & Hguards) | [Hno Hrun]].
  - rewrite (isAgentThread_past_guards _ _ _ _ _ _ Hguards).
    cbn [world snd]. repeat split. right.
    exists token, bot, thread_ts. split; [assumption|].
    now apply newOps_app.
  - rewrite Hrun. cbn [world snd]. repeat split. now left.
Qed.

(** X5: [isAgentThread] throws exactly when the guards let the event
    through and the [conversations.replies] request is rejected; what it
    throws is that rejection. *)
Theorem isAgentThread_throws (event : Event.t)
    (mailboxInfo : SlackMailboxInfo) (w : World) (e : Exn) :
  result (isAgentThread slack event mailboxInfo w) = Thrown e
  <-> exists token botUserId thread_ts reason,
        passesGuards event mailboxInfo token botUserId thread_ts
        /\ replies slack (log w) token (Event.channel event) thread_ts 50
           = Rejected reason
        /\ e = Rejection reason.
Proof.
  destruct (guards_decided event mailboxInfo)
    as [(token & bot & thread_ts & Hguards) | [Hno Hrun]].
  - rewrite (isAgentThread_past_guards _ _ _ _ _ _ Hguards).
    cbn [result fst]. split.
    + destruct (replies slack (log w) token (Event.channel event)
                  thread_ts 50) as [response|reason] eqn:Hr;
        [discriminate|].
      intros H; injection H as <-. now exists token, bot, thread_ts, reason.
    + intros (token' & bot' & thread_ts' & reason & Hg & Hr & ->).
      destruct (passesGuards_unique _ _ _ _ _ _ _ _ Hguards Hg)
        as (<- & <- & <-).
      now rewrite Hr.
  - rewrite Hrun. cbn [result fst]. split; [discriminate|].
    intros (token & bot & thread_ts & _ & Hg & _).
    contradiction Hno. now exists token, bot, thread_ts.
Qed.

(** X6: an empty credential, bot identity or thread timestamp counts as a
    missing one: [isAgentThread] answers false without any call. *)
Theorem isAgentThread_empty_strings (event : Event.t)
    (mailboxInfo : SlackMailboxInfo) (w : World) :
  (exists mailbox,
      nth_error (mailboxes mailboxInfo) 0 = Some mailbox
      /\ (Mailbox.slackBotToken mailbox = Some ""
          \/ Mailbox.slackBotUserId mailbox = Some ""))
  \/ Event.thread_ts event = Some "" ->
  isAgentThread slack event mailboxInfo w = (Normal false, w).
Proof.
  intros H.
  destruct (guards_decided event mailboxInfo)
    as [(token & bot & thread_ts & (m & H0 & Ht & Hb) & Hnt & Hnb & Hts
         & Hne & _) | [_ Hrun]]; [exfalso | apply Hrun].
  destruct H as [(m' & H0' & [He|He]) | He]; congruence.
Qed.

End AgentThreadCalls.

Section Outcomes.

Variable slack : SlackApi.
Variable WHICH_MAILBOX_MESSAGE : string.
Variable toLowerCase : string -> string.

Local Abbreviation handle :=
  (handleMessage slack WHICH_MAILBOX_MESSAGE toLowerCase).
Local Abbreviation route :=
  (routeMessage slack WHICH_MAILBOX_MESSAGE toLowerCase).

Ltac calls_of :=
  eexists; split;
  [ cbn [log logged]; rewrite <- ?app_assoc;
    first [ reflexivity | symmetry; apply app_nil_r ] | ];
  cbn [app].

Ltac locate_call Hops :=
  repeat match type of Hops with
         | _ = (?pre ++ _ :: _)%list =>
             let Hh := fresh "Hhead" in
             destruct pre as [|? pre]; cbn [app] in Hops;
             try discriminate Hops;
             apply cons_eq_inv in Hops; destruct Hops as [Hh Hops];
             try discriminate Hh
         end.

(** The Thread table after routing, with an effective mailbox. *)
Lemma route_binding (event : Event.t) (mailboxInfo : SlackMailboxInfo)
    (t : AgentThread.t) (text : string) (w0 : World) (current : Mailbox.t) :
  effectiveMailbox mailboxInfo t = Some current ->
  post (route event mailboxInfo t text) w0 (fun _ w' =>
    agentThreads w'
    = match findMentionedMailbox toLowerCase text (mailboxes mailboxInfo)
      current with
      | Some m =>
          map (setMailboxId (AgentThread.id t) (Mailbox.id m))
            (agentThreads w0)
      | None =>
          if Js.truthyNum (AgentThread.mailboxId t)
          then agentThreads w0
          else
            map (setMailboxId (AgentThread.id t) (Mailbox.id current))
              (agentThreads w0)
      end).
Proof.
  intros Ecur. unfold routeMessage.
  fold (effectiveMailbox mailboxInfo t). rewrite Ecur. cbv zeta.
  destruct (findMentionedMailbox toLowerCase text (mailboxes mailboxInfo)
              current)
    as [m|] eqn:Em;
    destruct (Js.truthyNum (AgentThread.mailboxId t)) eqn:Eb;
    cbn [negb orb Js.isSome andb]; wp; reflexivity.
Qed.

(** The job, when one is enqueued. *)
Lemma route_job (event : Event.t) (mailboxInfo : SlackMailboxInfo)
    (t : AgentThread.t) (text : string) (w0 : World) :
  post (route event mailboxInfo t text) w0 (fun r w' =>
    exists ops, log w' = (log w0 ++ ops)%list
    /\ forall pre name payload rest,
         ops = (pre ++ TriggerEvent name payload :: rest)%list ->
         rest = [] /\ name = "slack/agent.message"
         /\ existsb isTriggerEvent pre = false
         /\ r = Normal tt
         /\ exists pre' token ts,
              pre = (pre' ++ [placeholder token event])%list
              /\ postMessage slack (log w0 ++ pre') token
                   (Event.channel event) (threadRoot event) "_Thinking..._"
                 = Resolved (Some ts)
              /\ ts <> ""
              /\ payload
                 = {| slackUserId := Event.user event;
                      statusMessageTs := ts;
                      agentThreadId := AgentThread.id t |}).
Proof.
  unfold routeMessage, placeholder.
  fold (effectiveMailbox mailboxInfo t).
  destruct (effectiveMailbox mailboxInfo t) as [current|] eqn:Ecur.
  - cbv zeta.
    destruct (findMentionedMailbox toLowerCase text (mailboxes mailboxInfo)
                current)
      as [m|] eqn:Em;
      destruct (Js.truthyNum (AgentThread.mailboxId t)) eqn:Eb;
      cbn [negb orb Js.isSome andb]; wp; calls_of.
    all: intros pre name payload rest Hops.
    all: locate_call Hops.
    all: cbn [log logged] in *; rewrite <- ?app_assoc in *; cbn [app] in *.
    all: rewrite ?app_nil_r in *.
    all: subst;
      match goal with
      | H : TriggerEvent _ _ = TriggerEvent _ _ |- _ =>
          injection H as <- <-
      end.
    all: repeat split.
    all: match goal with
         | H : postMessage _ (_ ++ ?l)%list ?tok _ _ _ = Resolved (Some ?ts)
           |- _ =>
             exists l, tok, ts
         | H : postMessage _ (log _) ?tok _ _ _ = Resolved (Some ?ts)
           |- _ =>
             exists (@nil Op), tok, ts
         end.
    all: rewrite ?app_nil_r; repeat split; try assumption; discriminate.
  - wp; calls_of.
    all: intros pre name payload rest Hops.
    all: locate_call Hops.
Qed.

(** How routing completes, and whether the job is enqueued. *)
Lemma route_outcome (event : Event.t) (mailboxInfo : SlackMailboxInfo)
    (t : AgentThread.t) (text : string) (w0 : World) :
  post (route event mailboxInfo t text) w0 (fun r w' =>
    exists ops, log w' = (log w0 ++ ops)%list
    /\ (forall e, r = Thrown e ->
          existsb isTriggerEvent ops = false
          /\ (e = NotDefined
              \/ e = Error "Failed to post initial message"
              \/ exists reason, e = Rejection reason))
    /\ (forall current,
          effectiveMailbox mailboxInfo t = Some current ->
          r = Normal tt -> existsb isTriggerEvent ops = true)).
Proof.
  unfold routeMessage.
  fold (effectiveMailbox mailboxInfo t).
  destruct (effectiveMailbox mailboxInfo t) as [current|] eqn:Ecur.
  - cbv zeta.
    destruct (findMentionedMailbox toLowerCase text (mailboxes mailboxInfo)
                current)
      as [m|] eqn:Em;
      destruct (Js.truthyNum (AgentThread.mailboxId t)) eqn:Eb;
      cbn [negb orb Js.isSome andb]; wp; calls_of.
    all: split;
      [ intros e He;
        first [ discriminate He
              | injection He as <-; (split; [reflexivity | eauto]) ]
      | intros c _ Hr; first [ discriminate Hr | reflexivity ] ].
  - wp; calls_of.
    all: split;
      [ intros e He;
        first [ discriminate He
              | injection He as <-; (split; [reflexivity | eauto]) ]
      | intros c Hc; discriminate Hc ].
Qed.

Lemma routed_run (event : Event.t) (mailboxInfo : SlackMailboxInfo)
    (w : World) (text : string) :
  routed w event text ->
  handle event mailboxInfo w
  = route event mailboxInfo (threadFor w event) text (recorded w event text).
Proof.
  intros (Hbot & Ht & Hne & Hdup). now apply handleMessage_routes.
Qed.

Lemma routed_ops (event : Event.t) (mailboxInfo : SlackMailboxInfo)
    (w : World) (text : string) (ops : list Op) :
  routed w event text ->
  log (world (route event mailboxInfo (threadFor w event) text
                (recorded w event text)))
  = (log (recorded w event text) ++ ops)%list ->
  exists dbOps,
    log (recorded w event text) = (log w ++ dbOps)%list
    /\ forallb isDbCall dbOps = true
    /\ newOps w (world (handle event mailboxInfo w)) = (dbOps ++ ops)%list.
Proof.
  intros (Hbot & Ht & Hne & Hdup).
  now apply (routed_calls slack WHICH_MAILBOX_MESSAGE toLowerCase).
Qed.

(** A delivery is routed, or it calls the persistence layer only and
    returns normally. *)
Lemma routed_or_not (event : Event.t) (mailboxInfo : SlackMailboxInfo)
    (w : World) :
  (exists text, routed w event text)
  \/ (result (handle event mailboxInfo w) = Normal tt
      /\ forallb isDbCall (newOps w (world (handle event mailboxInfo w)))
         = true).
Proof.
  destruct (handleMessage_cases slack WHICH_MAILBOX_MESSAGE toLowerCase event
              mailboxInfo w)
    as [[Hbot Hrun] | [(Hbot & Hnt & Hrun)
                      | [(Hbot & text & Ht & Hne & Hdup & Hrun)
                        | (Hbot & text & Ht & Hne & Hdup & _)]]].
  4: { left. now exists text. }
  all: right; split;
    [ now rewrite Hrun
    | apply (unrouted_calls slack WHICH_MAILBOX_MESSAGE toLowerCase); tauto ].
Qed.

(** X7: a job that [handleMessage] enqueues is its last call and its only
    job; the handler then returns normally.  The job is
    ["slack/agent.message"]; the call before it is the placeholder post,
    and the payload carries the sender of the event, the timestamp with
    which that post was answered, which is not empty, and the id of the
    Thread of the event. *)
Theorem enqueued_job (event : Event.t) (mailboxInfo : SlackMailboxInfo)
    (w : World) (pre rest : list Op) (name : string) (payload : JobPayload) :
  let r := handle event mailboxInfo w in
  newOps w (world r) = (pre ++ TriggerEvent name payload :: rest)%list ->
  rest = [] /\ name = "slack/agent.message"
  /\ existsb isTriggerEvent pre = false
  /\ result r = Normal tt
  /\ exists pre' token ts,
       pre = (pre' ++ [placeholder token event])%list
       /\ postMessage slack (log w ++ pre') token (Event.channel event)
            (threadRoot event) "_Thinking..._"
          = Resolved (Some ts)
       /\ ts <> ""
       /\ payload
          = {| slackUserId := Event.user event;
               statusMessageTs := ts;
               agentThreadId := AgentThread.id (threadFor w event) |}.
Proof.
  intros r Hops. subst r.
  destruct (routed_or_not event mailboxInfo w) as [(text & Hrouted) | [_ Hdb]].
  - destruct (route_job event mailboxInfo (threadFor w event) text
                (recorded w event text)) as (ops & Hlog & Hjob).
    destruct (routed_ops _ _ _ _ _ Hrouted Hlog) as (dbOps & Hrec & Hdb & Hall).
    rewrite Hall in Hops.
    apply split_after_db_calls in Hops as (pre0 & -> & Hrops);
      [|assumption|reflexivity].
    destruct (Hjob _ _ _ _ Hrops)
      as (Hrest & Hname & Hpre & Hr & pre' & token & ts & -> & Hpost & Hts
          & Hpayload).
    rewrite (routed_run _ _ _ _ Hrouted).
    repeat split; try assumption.
    + rewrite existsb_app, Hpre. destruct (only_db_calls _ Hdb) as [-> _].
      reflexivity.
    + exists (dbOps ++ pre')%list, token, ts.
      rewrite <- !app_assoc. repeat split; try assumption.
      now rewrite app_assoc, <- Hrec.
  - rewrite Hops in Hdb.
    apply (in_db_calls _ (TriggerEvent name payload)) in Hdb;
      [discriminate | apply in_or_app; right; now left].
Qed.

(** X8: the failures of the handler's own come before the job.  When
    [handleMessage] throws anything but the rejection of an awaited call,
    no job has been enqueued, and what it throws is the failure of
    [assertDefined] or the error of [postThinkingMessage]. *)
Theorem throws_without_job (event : Event.t) (mailboxInfo : SlackMailboxInfo)
    (w : World) (e : Exn) :
  let r := handle event mailboxInfo w in
  result r = Thrown e ->
  (forall reason, e <> Rejection reason) ->
  existsb isTriggerEvent (newOps w (world r)) = false
  /\ (e = NotDefined \/ e = Error "Failed to post initial message").
Proof.
  intros r He Hown. subst r.
  destruct (routed_or_not event mailboxInfo w)
    as [(text & Hrouted) | [Hr _]]; [|congruence].
  destruct (route_outcome event mailboxInfo (threadFor w event) text
              (recorded w event text)) as (ops & Hlog & Hthrown & _).
  destruct (routed_ops _ _ _ _ _ Hrouted Hlog) as (dbOps & _ & Hdb & Hall).
  rewrite (routed_run _ _ _ _ Hrouted) in He.
  destruct (Hthrown e He) as [Hnone [Hwhich | [Hwhich | (reason & Hwhich)]]].
  3: now contradiction (Hown reason).
  all: split; [|auto].
  all: rewrite Hall, existsb_app, Hnone.
  all: destruct (only_db_calls _ Hdb) as [-> _]; reflexivity.
Qed.

(** X9: for a routed message with an effective mailbox, [handleMessage]
    returns normally exactly when it has enqueued the job. *)
Theorem routed_returns_iff_job (event : Event.t)
    (mailboxInfo : SlackMailboxInfo) (w : World) (text : string)
    (current : Mailbox.t) :
  routed w event text ->
  effectiveMailbox mailboxInfo (threadFor w event) = Some current ->
  let r := handle event mailboxInfo w in
  result r = Normal tt
  <-> existsb isTriggerEvent (newOps w (world r)) = true.
Proof.
  intros Hrouted Hcur r. subst r.
  destruct (route_outcome event mailboxInfo (threadFor w event) text
              (recorded w event text)) as (ops & Hlog & _ & Hnormal).
  destruct (route_job event mailboxInfo (threadFor w event) text
              (recorded w event text)) as (ops' & Hlog' & Hjob).
  assert (ops' = ops) by (apply (app_inv_head (log (recorded w event text)));
                          congruence).
  subst ops'.
  destruct (routed_ops _ _ _ _ _ Hrouted Hlog) as (dbOps & _ & Hdb & Hall).
  rewrite Hall, (routed_run _ _ _ _ Hrouted), existsb_app.
  destruct (only_db_calls _ Hdb) as [-> _]. cbn [orb]. split.
  - now apply (Hnormal current).
  - intros H. apply existsb_exists in H as (op & Hin & Hop).
    destruct op; try discriminate.
    apply in_split in Hin as (pre & rest & Hsplit).
    now destruct (Hjob _ _ _ _ Hsplit) as (_ & _ & _ & Hr & _).
Qed.

(** X10: on a table with no two Threads for one channel and thread root,
    once a routed message has an effective mailbox and no awaited call of
    the run is rejected, the Thread of the event is in the table with the
    mailbox the code chose for it: the mentioned one, else the one it had,
    else the effective one.  This is so also when the handler fails on a
    missing credential or on the placeholder: the binding is written
    first, and it is not undone. *)
Theorem binding_is_persisted (event : Event.t)
    (mailboxInfo : SlackMailboxInfo) (w : World) (text : string)
    (current : Mailbox.t) :
  uniqueRoots w ->
  routed w event text ->
  effectiveMailbox mailboxInfo (threadFor w event) = Some current ->
  let r := handle event mailboxInfo w in
  (forall reason, result r <> Thrown (Rejection reason)) ->
  exists t,
    find (threadMatches (Event.channel event) (threadRoot event))
      (agentThreads (world r)) = Some t
    /\ threadKey t = threadKey (threadFor w event)
    /\ AgentThread.mailboxId t
       = boundTo toLowerCase mailboxInfo (threadFor w event) text current.
Proof.
  intros Hroots Hrouted Hcur r Hanswered. subst r.
  rewrite (routed_run _ _ _ _ Hrouted).
  pose proof (route_binding event mailboxInfo (threadFor w event) text
                (recorded w event text) current Hcur) as Ht.
  unfold post in Ht. rewrite Ht. unfold boundTo.
  assert (Hfind : find (threadMatches (Event.channel event) (threadRoot event))
                    (agentThreads (recorded w event text))
                  = Some (threadFor w event)) by apply find_resolved.
  assert (Hset : forall mailboxId,
             setMailboxId (AgentThread.id (threadFor w event)) mailboxId
               (threadFor w event)
             = AgentThread.mk (AgentThread.id (threadFor w event))
                 (AgentThread.slackChannel (threadFor w event))
                 (AgentThread.threadTs (threadFor w event)) (Some mailboxId)).
  { intros i. unfold setMailboxId. now rewrite Z.eqb_refl. }
  destruct (findMentionedMailbox toLowerCase text (mailboxes mailboxInfo)
              current)
    as [m|]; [|destruct (Js.truthyNum _)].
  - rewrite find_setMailboxId, Hfind. cbn [option_map]. rewrite Hset.
    eexists. repeat split.
  - now exists (threadFor w event).
  - rewrite find_setMailboxId, Hfind. cbn [option_map]. rewrite Hset.
    eexists. repeat split.
Qed.


(** Routing to a mentioned mailbox that has no credential. *)
Lemma route_mention_without_credential (event : Event.t)
    (mailboxInfo : SlackMailboxInfo) (t : AgentThread.t) (text : string)
    (w0 : World) (current m : Mailbox.t) :
  effectiveMailbox mailboxInfo t = Some current ->
  findMentionedMailbox toLowerCase text (mailboxes mailboxInfo) current
  = Some m ->
  Mailbox.slackBotToken m = None ->
  post (route event mailboxInfo t text) w0 (fun r w' =>
    r = Thrown NotDefined
    /\ log w' = (log w0 ++ [DbUpdateThread (AgentThread.id t)
                              (Mailbox.id m)])%list).
Proof.
  intros Ecur Em Htok. unfold routeMessage.
  fold (effectiveMailbox mailboxInfo t). rewrite Ecur. cbv zeta.
  rewrite Em.
  destruct (findMentionedMailbox_Some _ _ _ _ _ Em) as (Hlen & _).
  apply Nat.ltb_lt in Hlen. rewrite Hlen, Htok.
  destruct (Js.truthyNum (AgentThread.mailboxId t));
    cbn [negb orb Js.isSome andb]; wp; now split.
Qed.

(** X12: a mention of a mailbox that has no credential.  The run calls
    the persistence layer only, neither Slack nor the job queue.  On a
    table with no two Threads for one channel and thread root, and unless
    an awaited call is rejected, the Thread is bound to that mailbox all
    the same, the update being the last call, and the handler throws the
    failed assertion. *)
Theorem mention_without_credential (event : Event.t)
    (mailboxInfo : SlackMailboxInfo) (w : World) (text : string)
    (current m : Mailbox.t) :
  uniqueRoots w ->
  routed w event text ->
  effectiveMailbox mailboxInfo (threadFor w event) = Some current ->
  findMentionedMailbox toLowerCase text (mailboxes mailboxInfo) current
  = Some m ->
  Mailbox.slackBotToken m = None ->
  let r := handle event mailboxInfo w in
  forallb isDbCall (newOps w (world r)) = true
  /\ ((forall reason, result r <> Thrown (Rejection reason)) ->
      result r = Thrown NotDefined
      /\ (exists dbOps,
             newOps w (world r)
             = (dbOps
                ++ [DbUpdateThread (AgentThread.id (threadFor w event))
                      (Mailbox.id m)])%list)
      /\ exists t,
           find (threadMatches (Event.channel event) (threadRoot event))
             (agentThreads (world r)) = Some t
           /\ AgentThread.mailboxId t = Some (Mailbox.id m)).
Proof.
  intros Hroots Hrouted Hcur Hm Htok r.
  pose proof (route_mention_without_credential event mailboxInfo
                (threadFor w event) text (recorded w event text) current m
                Hcur Hm Htok) as [Hr Hlog].
  destruct (routed_ops _ _ _ _ _ Hrouted Hlog) as (dbOps & _ & Hdb & Hall).
  pose proof (route_binding event mailboxInfo (threadFor w event) text
                (recorded w event text) current Hcur) as Ht.
  unfold post in Ht. rewrite Hm in Ht.
  subst r. rewrite (routed_run _ _ _ _ Hrouted) in *.
  split.
  - rewrite Hall, forallb_app, Hdb. reflexivity.
  - intros _. split; [exact Hr|]. split.
    + now exists dbOps.
    + assert (Hfind : find (threadMatches (Event.channel event)
                               (threadRoot event))
                        (agentThreads (recorded w event text))
                      = Some (threadFor w event)) by apply find_resolved.
      rewrite Ht, find_setMailboxId, Hfind. cbn [option_map].
      eexists. split; [reflexivity|].
      unfold setMailboxId. now rewrite Z.eqb_refl.
Qed.

End Outcomes.

Section Tables.

Variable slack : SlackApi.
Variable WHICH_MAILBOX_MESSAGE : string.
Variable toLowerCase : string -> string.

Local Abbreviation handle :=
  (handleMessage slack WHICH_MAILBOX_MESSAGE toLowerCase).
Local Abbreviation route :=
  (routeMessage slack WHICH_MAILBOX_MESSAGE toLowerCase).

Lemma threadKey_setMailboxId (threadId mailboxId : Z) (t : AgentThread.t) :
  threadKey (setMailboxId threadId mailboxId t) = threadKey t.
Proof. unfold setMailboxId. now destruct (AgentThread.id t =? threadId). Qed.

Lemma map_threadKey_setMailboxId (threadId mailboxId : Z)
    (l : list AgentThread.t) :
  map threadKey (map (setMailboxId threadId mailboxId) l) = map threadKey l.
Proof.
  rewrite map_map. apply map_ext. intros t. apply threadKey_setMailboxId.
Qed.

Lemma map_rootKey_threadKey (l l' : list AgentThread.t) :
  map threadKey l' = map threadKey l -> map rootKey l' = map rootKey l.
Proof.
  intros H.
  assert (E : forall k, map rootKey k
                        = map (fun key : Z * string * string =>
                                 (snd (fst key), snd key))
                            (map threadKey k))
    by (intros k; rewrite map_map; reflexivity).
  now rewrite !E, H.
Qed.

(** The rows the lookup-or-create adds: none, or the new Thread. *)
Lemma created_rows (w : World) (event : Event.t) :
  exists created : list AgentThread.t,
    agentThreads (resolved w event) = (agentThreads w ++ created)%list
    /\ (List.length created <= 1)%nat
    /\ (threadIn w event -> created = [])
    /\ (~ threadIn w event ->
        created
        = [AgentThread.mk (nextThreadId w) (Event.channel event)
             (threadRoot event) None]).
Proof.
  unfold resolved, threadIn, threadFor.
  destruct (find _ (agentThreads w)) as [t|] eqn:E; cbn [agentThreads logged].
  - exists []. rewrite app_nil_r. repeat split; auto.
    intros H. contradiction H. now exists t.
  - eexists. split; [reflexivity|]. repeat split; auto.
    intros (t & Ht). discriminate.
Qed.

(** What a delivery does to the Thread table: rows keep their place and
    their key, and at most one row is added. *)
Lemma threads_after (event : Event.t) (mailboxInfo : SlackMailboxInfo)
    (w : World) :
  exists updated added : list AgentThread.t,
    agentThreads (world (handle event mailboxInfo w))
    = (updated ++ added)%list
    /\ map threadKey updated = map threadKey (agentThreads w)
    /\ (List.length added <= 1)%nat
    /\ (threadIn w event -> added = [])
    /\ (forall t, In t added ->
          threadKey t
          = (nextThreadId w, Event.channel event, threadRoot event)
          /\ ~ threadIn w event /\ ~ hasBotMarker event).
Proof.
  destruct (created_rows w event) as (created & Hres & Hlen & Hin & Hnew).
  assert (Hkeys : forall t, In t created ->
            threadKey t
            = (nextThreadId w, Event.channel event, threadRoot event)
            /\ ~ threadIn w event).
  { intros t Ht. assert (Hno : ~ threadIn w event).
    { intros H. rewrite (Hin H) in Ht. contradiction. }
    rewrite (Hnew Hno) in Ht. destruct Ht as [<-|[]]. now split. }
  destruct (handleMessage_cases slack WHICH_MAILBOX_MESSAGE toLowerCase event
              mailboxInfo w)
    as [[_ ->] | [(Hbot & _ & ->) | [(Hbot & text & _ & _ & _ & ->)
                                    | (Hbot & text & _ & _ & _ & ->)]]];
    cbn [world snd].
  - exists (agentThreads w), []. rewrite app_nil_r.
    do 4 (split; auto). intros t [].
  - exists (agentThreads w), created. do 4 (split; auto).
    intros t Ht. destruct (Hkeys t Ht). auto.
  - exists (agentThreads w), created. do 4 (split; auto).
    intros t Ht. destruct (Hkeys t Ht). auto.
  - destruct (route_tables slack WHICH_MAILBOX_MESSAGE toLowerCase
                event mailboxInfo
                (threadFor w event) text (recorded w event text))
      as (_ & _ & [Ht | (current & m & _ & Ht & _)]);
      unfold world in *; rewrite Ht; cbn [recorded agentThreads];
      rewrite Hres.
    + exists (agentThreads w), created. do 4 (split; auto).
      intros t0 Ht0. destruct (Hkeys t0 Ht0). auto.
    + rewrite map_app. eexists; eexists. split; [reflexivity|].
      split; [apply map_threadKey_setMailboxId|].
      split; [now rewrite length_map|].
      split; [intros H; now rewrite (Hin H)|].
      intros t1 Ht1. apply in_map_iff in Ht1 as (t0 & <- & Ht0).
      rewrite threadKey_setMailboxId. destruct (Hkeys t0 Ht0). auto.
Qed.

(** What a delivery does to the Message table: at most one row is added,
    at the end. *)
Lemma messages_after (event : Event.t) (mailboxInfo : SlackMailboxInfo)
    (w : World) :
  exists added : list AgentMessage.t,
    agentMessages (world (handle event mailboxInfo w))
    = (agentMessages w ++ added)%list
    /\ (List.length added <= 1)%nat
    /\ forall m, In m added ->
         AgentMessage.role m = "user"
         /\ Event.text event = Some (AgentMessage.content m)
         /\ AgentMessage.slackChannel m = Event.channel event
         /\ AgentMessage.messageTs m = Event.ts event
         /\ AgentMessage.agentThreadId m = AgentThread.id (threadFor w event)
         /\ alreadyRecorded w event = false.
Proof.
  destruct (handleMessage_cases slack WHICH_MAILBOX_MESSAGE toLowerCase event
              mailboxInfo w)
    as [[_ ->] | [(_ & _ & ->) | [(_ & text & _ & _ & _ & ->)
                                 | (_ & text & Htext & _ & Hdup & ->)]]];
    cbn [world snd].
  1-3: exists []; rewrite app_nil_r; cbn [logged agentMessages];
       rewrite ?agentMessages_resolved; repeat split; auto; contradiction.
  destruct (route_tables slack WHICH_MAILBOX_MESSAGE toLowerCase
              event mailboxInfo
              (threadFor w event) text (recorded w event text))
    as (Hm & _).
  unfold world in *. rewrite Hm. cbn [recorded agentMessages].
  rewrite agentMessages_resolved.
  eexists. split; [reflexivity|]. split; [cbn; lia|].
  intros m [<-|[]]. cbn. now repeat split.
Qed.

(** X13: [handleMessage] deletes nothing and re-keys nothing: the Message
    table is extended by at most one row, a ["user"] row with the text,
    channel and timestamp of the event for its Thread; the Thread table
    keeps every row in place with its id, channel and thread root, and is
    extended by at most one row, none when the Thread of the event was
    there. *)
Theorem tables_only_grow (event : Event.t) (mailboxInfo : SlackMailboxInfo)
    (w : World) :
  let w' := world (handle event mailboxInfo w) in
  (exists added : list AgentMessage.t,
      agentMessages w' = (agentMessages w ++ added)%list
      /\ (List.length added <= 1)%nat
      /\ forall m, In m added ->
           AgentMessage.role m = "user"
           /\ Event.text event = Some (AgentMessage.content m)
           /\ AgentMessage.slackChannel m = Event.channel event
           /\ AgentMessage.messageTs m = Event.ts event
           /\ AgentMessage.agentThreadId m
              = AgentThread.id (threadFor w event))
  /\ (exists updated added : list AgentThread.t,
         agentThreads w' = (updated ++ added)%list
         /\ map threadKey updated = map threadKey (agentThreads w)
         /\ (List.length added <= 1)%nat
         /\ (threadIn w event -> added = [])).
Proof.
  intros w'. subst w'. split.
  - destruct (messages_after event mailboxInfo w) as (added & H & Hlen & Hrow).
    exists added. repeat split; try assumption; now apply Hrow.
  - destruct (threads_after event mailboxInfo w)
      as (updated & added & H & Hkeys & Hlen & Hin & _).
    now exists updated, added.
Qed.

Lemma threadMatches_rootKey (slackChannel threadTs : string)
    (t : AgentThread.t) :
  threadMatches slackChannel threadTs t = true
  <-> rootKey t = (slackChannel, threadTs).
Proof.
  unfold threadMatches, rootKey.
  rewrite andb_true_iff, !String.eqb_eq. split.
  - now intros [-> ->].
  - intros H. now injection H.
Qed.

Lemma threadIn_rootKey (w : World) (event : Event.t) :
  threadIn w event
  <-> In (Event.channel event, threadRoot event)
        (map rootKey (agentThreads w)).
Proof.
  unfold threadIn. rewrite in_map_iff. split.
  - intros (t & H). apply find_some in H as [Hin Hm].
    exists t. split; [now apply threadMatches_rootKey | assumption].
  - intros (t & Hk & Hin).
    destruct (find (threadMatches (Event.channel event) (threadRoot event))
                (agentThreads w)) as [t'|] eqn:E; [now exists t'|].
    apply (find_none _ _ E) in Hin.
    apply threadMatches_rootKey in Hk. congruence.
Qed.

(** With no two Threads for one root the lookup has one possible answer:
    a row of the table that matches is the row it returns, wherever the
    row stands in the list. *)
Lemma lookup_unique (w : World) (slackChannel threadTs : string)
    (t : AgentThread.t) :
  uniqueRoots w ->
  In t (agentThreads w) ->
  threadMatches slackChannel threadTs t = true ->
  find (threadMatches slackChannel threadTs) (agentThreads w) = Some t.
Proof.
  intros Hroots Hin Hm.
  destruct (find (threadMatches slackChannel threadTs) (agentThreads w))
    as [t'|] eqn:E.
  - apply find_some in E as [Hin' Hm']. f_equal.
    apply (NoDup_map_eq rootKey (agentThreads w)); try assumption.
    apply threadMatches_rootKey in Hm, Hm'. congruence.
  - apply (find_none _ _ E) in Hin. congruence.
Qed.

Lemma NoDup_snoc {A : Type} (l : list A) (a : A) :
  NoDup l -> ~ In a l -> NoDup (l ++ [a]).
Proof.
  intros Hl Ha. apply NoDup_app; [assumption | repeat constructor; intros [] |].
  intros x Hx [<-|[]]. contradiction.
Qed.

Lemma uniqueRoots_handleMessage (event : Event.t)
    (mailboxInfo : SlackMailboxInfo) (w : World) :
  uniqueRoots w -> uniqueRoots (world (handle event mailboxInfo w)).
Proof.
  unfold uniqueRoots. intros Hw.
  destruct (threads_after event mailboxInfo w)
    as (updated & added & -> & Hkeys & Hlen & _ & Hadded).
  rewrite map_app, (map_rootKey_threadKey _ _ Hkeys).
  destruct added as [|t [|t' added]]; cbn [List.length] in Hlen; [| |lia].
  - now rewrite app_nil_r.
  - apply NoDup_snoc; [assumption|].
    destruct (Hadded t (or_introl eq_refl)) as (Hk & Hno & _).
    intros Hin. apply Hno, threadIn_rootKey.
    unfold rootKey in Hin |- *. unfold threadKey in Hk.
    injection Hk as _ Hc Hr. now rewrite Hc, Hr in Hin.
Qed.

(** X14: deliveries that are handled one after the other, each run to its
    end before the next starts, keep the Threads apart: if no two Threads
    share a channel and thread root before them, none do after them.
    (Runs that overlap are not covered: the lookup and the insert are two
    awaited calls.) *)
Theorem roots_stay_unique (deliveries : list (Event.t * SlackMailboxInfo))
    (w : World) :
  uniqueRoots w ->
  uniqueRoots (deliverAll slack WHICH_MAILBOX_MESSAGE toLowerCase deliveries w).
Proof.
  revert w; induction deliveries as [|[event mailboxInfo] rest IH];
    intros w Hw; cbn [deliverAll]; [assumption|].
  now apply IH, uniqueRoots_handleMessage.
Qed.

Lemma conflicts_messageKey (agentThreadId : Z) (messageTs : string)
    (m : AgentMessage.t) :
  conflicts agentThreadId messageTs m = true
  <-> messageKey m = (agentThreadId, messageTs).
Proof.
  unfold conflicts, messageKey.
  rewrite andb_true_iff, Z.eqb_eq, String.eqb_eq. split.
  - now intros [-> ->].
  - intros H. now injection H.
Qed.

Lemma uniqueMessages_handleMessage (event : Event.t)
    (mailboxInfo : SlackMailboxInfo) (w : World) :
  uniqueMessages w -> uniqueMessages (world (handle event mailboxInfo w)).
Proof.
  unfold uniqueMessages. intros Hw.
  destruct (messages_after event mailboxInfo w) as (added & -> & Hlen & Hrow).
  destruct added as [|m [|m' added]]; cbn [List.length] in Hlen; [| |lia].
  - now rewrite app_nil_r.
  - rewrite map_app. apply NoDup_snoc; [assumption|]. cbn [map].
    destruct (Hrow m (or_introl eq_refl)) as (_ & _ & _ & Hts & Hid & Hdup).
    intros Hin. apply in_map_iff in Hin as (m0 & Hk & Hin).
    unfold alreadyRecorded in Hdup.
    apply not_true_iff_false in Hdup. apply Hdup.
    apply existsb_exists. exists m0. split; [assumption|].
    apply conflicts_messageKey. rewrite Hk. unfold messageKey.
    now rewrite Hts, Hid.
Qed.

(** X15: the insert that does nothing on conflict keeps the Messages
    apart: if no two Messages share a Thread and a timestamp, this is
    still so after any number of deliveries. *)
Theorem messages_stay_unique (deliveries : list (Event.t * SlackMailboxInfo))
    (w : World) :
  uniqueMessages w ->
  uniqueMessages (deliverAll slack WHICH_MAILBOX_MESSAGE toLowerCase
                    deliveries w).
Proof.
  revert w; induction deliveries as [|[event mailboxInfo] rest IH];
    intros w Hw; cbn [deliverAll]; [assumption|].
  now apply IH, uniqueMessages_handleMessage.
Qed.

(** X16: Threads persist.  On a table with no two Threads for one channel
    and thread root, a lookup that finds a Thread finds, after any number
    of deliveries handled one after the other, a Thread with the same id,
    channel and thread root. *)
Theorem threads_persist (deliveries : list (Event.t * SlackMailboxInfo))
    (w : World) (slackChannel threadTs : string) (t : AgentThread.t) :
  uniqueRoots w ->
  find (threadMatches slackChannel threadTs) (agentThreads w) = Some t ->
  exists t',
    find (threadMatches slackChannel threadTs)
      (agentThreads
         (deliverAll slack WHICH_MAILBOX_MESSAGE toLowerCase deliveries w))
    = Some t'
    /\ threadKey t' = threadKey t.
Proof.
  intros Hroots H.
  destruct (stable_deliverAll slack WHICH_MAILBOX_MESSAGE toLowerCase
              deliveries w) as [Hthreads _].
  destruct (Hthreads _ _ _ H) as (t' & H' & Hid).
  exists t'. split; [assumption|].
  apply find_some in H as [_ Hm], H' as [_ Hm'].
  apply threadMatches_rootKey in Hm, Hm'.
  unfold rootKey in Hm, Hm'. unfold threadKey.
  injection Hm as Hc Hr. injection Hm' as Hc' Hr'. congruence.
Qed.

End Tables.

Section AssistantThread.

Import Assistant.

Variable slack : Api.

Lemma skipn_length_app {A : Type} (l l' : list A) :
  skipn (List.length l) (l ++ l') = l'.
Proof. induction l; cbn; auto. Qed.

(** The three ways a run can go. *)
Lemma handleAssistantThreadMessage_cases (assistant_thread : Thread)
    (mailboxInfo : SlackMailboxInfo) (calls : list Call) :
  let channel := channel_id assistant_thread in
  let ts := thread_ts assistant_thread in
  (firstCredential mailboxInfo = None
   /\ handleAssistantThreadMessage slack assistant_thread mailboxInfo calls
      = (Thrown NotDefined, calls))
  \/ (exists client reason,
         firstCredential mailboxInfo = Some client
         /\ postMessage slack calls client channel ts greeting
            = Rejected reason
         /\ handleAssistantThreadMessage slack assistant_thread mailboxInfo
              calls
            = (Thrown (Rejection reason),
               calls ++ [ChatPostMessage client channel ts greeting])%list)
  \/ (exists client,
         firstCredential mailboxInfo = Some client
         /\ postMessage slack calls client channel ts greeting = Resolved tt
         /\ handleAssistantThreadMessage slack assistant_thread mailboxInfo
              calls
            = (match setSuggestedPrompts slack
                       (calls ++ [ChatPostMessage client channel ts
                                    greeting])
                       client channel ts suggestedPrompts with
               | Resolved _ => Normal tt
               | Rejected reason => Thrown (Rejection reason)
               end,
               calls ++ [ChatPostMessage client channel ts greeting;
                         SetSuggestedPrompts client channel ts
                           suggestedPrompts])%list).
Proof.
  intros channel ts. subst channel ts.
  unfold handleAssistantThreadMessage, firstCredential, andThen,
    assertDefined, chat_postMessage, assistant_threads_setSuggestedPrompts,
    awaited.
  destruct (mailboxes mailboxInfo) as [|m rest]; cbn [nth_error];
    [now left|].
  destruct (Mailbox.slackBotToken m) as [client|]; [|now left].
  right.
  destruct (postMessage slack calls client _ _ greeting) as [[]|reason] eqn:E.
  - right. exists client. split; [reflexivity|]. split; [exact E|].
    rewrite <- app_assoc. cbn [app].
    now destruct (setSuggestedPrompts slack _ client _ _ suggestedPrompts)
      as [[]|reason'].
  - left. now exists client, reason.
Qed.

(** X18: the assistant-thread handler throws the failed assertion exactly
    when there is no first listed mailbox with a credential, and then it
    has made no call. *)
Theorem assistant_thread_needs_credential (assistant_thread : Thread)
    (mailboxInfo : SlackMailboxInfo) (calls : list Call) :
  let r :=
    handleAssistantThreadMessage slack assistant_thread mailboxInfo calls in
  (fst r = Thrown NotDefined <-> firstCredential mailboxInfo = None)
  /\ (fst r = Thrown NotDefined -> snd r = calls).
Proof.
  intros r. subst r.
  destruct (handleAssistantThreadMessage_cases assistant_thread mailboxInfo
              calls)
    as [(Hc & ->) | [(client & reason & Hc & _ & ->)
                    | (client & Hc & _ & ->)]]; cbn [fst snd].
  - tauto.
  - rewrite Hc. split; [split|]; discriminate.
  - rewrite Hc.
    destruct (setSuggestedPrompts slack _ client _ _ suggestedPrompts);
      (split; [split|]; discriminate).
Qed.

(** X19: the assistant-thread handler sets the suggested prompts only
    after Slack accepted its greeting: a [setSuggestedPrompts] call of a
    run is its second and last call, it carries the three prompts of the
    handler, and the first call is the greeting, accepted, posted to the
    same thread with the same credential, that of the first listed
    mailbox. *)
Theorem prompts_follow_greeting (assistant_thread : Thread)
    (mailboxInfo : SlackMailboxInfo) (calls : list Call)
    (client channel ts : string) (prompts : list Prompt) :
  let r :=
    handleAssistantThreadMessage slack assistant_thread mailboxInfo calls in
  In (SetSuggestedPrompts client channel ts prompts) (added calls r) ->
  firstCredential mailboxInfo = Some client
  /\ channel = channel_id assistant_thread
  /\ ts = thread_ts assistant_thread
  /\ prompts = suggestedPrompts
  /\ postMessage slack calls client channel ts greeting = Resolved tt
  /\ snd r
     = (calls ++ [ChatPostMessage client channel ts greeting;
                  SetSuggestedPrompts client channel ts prompts])%list.
Proof.
  intros r. subst r. unfold added.
  destruct (handleAssistantThreadMessage_cases assistant_thread mailboxInfo
              calls)
    as [(Hc & ->) | [(client' & reason & Hc & _ & ->)
                    | (client' & Hc & Hpost & ->)]]; cbn [fst snd].
  - rewrite <- (app_nil_r calls) at 2. rewrite skipn_length_app.
    intros [].
  - rewrite skipn_length_app. intros [H|[]]. discriminate.
  - rewrite skipn_length_app. intros [H|[H|[]]]; [discriminate|].
    injection H as <- <- <- <-. now repeat split.
Qed.

(** X20: the assistant-thread handler returns exactly when the first
    listed mailbox has a credential and Slack accepted both the greeting
    and, after it, the prompts; a refusal of either call is thrown on, and
    the refused call is the last of the run. *)
Theorem assistant_thread_returns (assistant_thread : Thread)
    (mailboxInfo : SlackMailboxInfo) (calls : list Call) :
  let r :=
    handleAssistantThreadMessage slack assistant_thread mailboxInfo calls in
  let channel := channel_id assistant_thread in
  let ts := thread_ts assistant_thread in
  (fst r = Normal tt
   <-> exists client,
         firstCredential mailboxInfo = Some client
         /\ postMessage slack calls client channel ts greeting = Resolved tt
         /\ setSuggestedPrompts slack
              (calls ++ [ChatPostMessage client channel ts greeting])
              client channel ts suggestedPrompts
            = Resolved tt)
  /\ (forall reason,
        fst r = Thrown (Rejection reason) ->
        exists client before,
          firstCredential mailboxInfo = Some client
          /\ ((before = calls
               /\ snd r
                  = (before ++ [ChatPostMessage client channel ts greeting])
                    %list
               /\ postMessage slack before client channel ts greeting
                  = Rejected reason)
              \/ (before
                  = (calls ++ [ChatPostMessage client channel ts greeting])
                    %list
                  /\ snd r
                     = (before ++ [SetSuggestedPrompts client channel ts
                                     suggestedPrompts])%list
                  /\ setSuggestedPrompts slack before client channel ts
                       suggestedPrompts
                     = Rejected reason))).
Proof.
  intros r channel ts. subst r channel ts.
  destruct (handleAssistantThreadMessage_cases assistant_thread mailboxInfo
              calls)
    as [(Hc & ->) | [(client & reason & Hc & Hpost & ->)
                    | (client & Hc & Hpost & ->)]]; cbn [fst snd].
  - split; [split|]; try discriminate.
    intros (client & Hc' & _). congruence.
  - split; [split|]; try discriminate.
    + intros (client' & Hc' & Hpost' & _). congruence.
    + intros reason' H. injection H as <-.
      exists client, calls. split; [assumption|]. left. now repeat split.
  - destruct (setSuggestedPrompts slack _ client _ _ suggestedPrompts)
      as [[]|reason] eqn:Hset.
    + split; [split; [intros _; now exists client | reflexivity]
             | discriminate].
    + split; [split|]; try discriminate.
      * intros (client' & Hc' & _ & Hset').
        assert (client' = client) by congruence. subst client'. congruence.
      * intros reason' H. injection H as <-.
        eexists client, _. split; [assumption|]. right.
        split; [reflexivity|]. split; [|assumption].
        now rewrite <- app_assoc.
Qed.

End AssistantThread.

(** * The further properties at sample inputs *)

Lemma opening_routed (text : string) :
  text <> "" -> routed Sample.empty (Sample.opening text) text.
Proof.
  intros Hne. split; [apply opening_no_marker|]. now repeat split.
Qed.

Lemma reply_routed (text : string) :
  text <> "" -> routed Sample.bound (Sample.reply text) text.
Proof.
  intros Hne. split; [apply reply_no_marker|]. now repeat split.
Qed.

Lemma bound_uniqueRoots : uniqueRoots Sample.bound.
Proof. unfold uniqueRoots. cbn. repeat constructor. intros []. Qed.

Lemma bound_primaryKey : primaryKey Sample.bound.
Proof.
  split; cbn.
  - repeat constructor. intros [].
  - repeat constructor.
Qed.

(** A second mailbox that has no name. *)
Lemma unnamed_mailbox_is_always_mentioned_witness :
  exists found,
    findMentionedMailbox Js.toLowerCase "hello"
      [Sample.support; Mailbox.mk 3 "" (Some "xoxb-other") None]
      Sample.support
    = Some found.
Proof.
  apply (unnamed_mailbox_is_always_mentioned Js.toLowerCase "hello" _
           Sample.support (Mailbox.mk 3 "" (Some "xoxb-other") None)).
  - reflexivity.
  - cbn. lia.
  - right. now left.
  - reflexivity.
  - discriminate.
Defined.

(** A reply whose thread timestamp is the empty string. *)
Lemma isAgentThread_empty_strings_witness :
  isAgentThread (Sample.api [])
    (Event.mk "C1" "1700000150.000100" (Some "") (Some "any news?")
       (Some "U1") None None)
    Sample.oneMailbox Sample.empty
  = (Normal false, Sample.empty).
Proof.
  apply isAgentThread_empty_strings. right. reflexivity.
Defined.

(** The first message of a thread, one mailbox. *)
Lemma enqueued_job_witness :
  let r :=
    handleMessage (Sample.api []) Sample.prompt Js.toLowerCase
      (Sample.opening "hello")
      Sample.oneMailbox Sample.empty in
  result r = Normal tt
  /\ exists ops,
       newOps Sample.empty (world r)
       = (ops
          ++ [TriggerEvent "slack/agent.message"
                {| slackUserId := Some "U1";
                   statusMessageTs := "1700000200.000100";
                   agentThreadId := 1 |}])%list
       /\ existsb isTriggerEvent ops = false.
Proof.
  intros r.
  destruct (enqueued_job (Sample.api []) Sample.prompt Js.toLowerCase
              (Sample.opening "hello") Sample.oneMailbox Sample.empty
              (firstn 5 (newOps Sample.empty (world r))) []
              "slack/agent.message"
              {| slackUserId := Some "U1";
                 statusMessageTs := "1700000200.000100";
                 agentThreadId := 1 |} eq_refl)
    as (_ & _ & Hpre & Hr & _).
  split; [exact Hr|].
  exists (firstn 5 (newOps Sample.empty (world r))). now split.
Defined.

(** The same message, when the response to the placeholder has no
    timestamp. *)
Lemma throws_without_job_witness :
  let r :=
    handleMessage Sample.mute Sample.prompt Js.toLowerCase
      (Sample.opening "hello") Sample.oneMailbox Sample.empty in
  result r = Thrown (Error "Failed to post initial message")
  /\ existsb isTriggerEvent (newOps Sample.empty (world r)) = false.
Proof.
  intros r. split; [reflexivity|].
  refine (proj1 (throws_without_job Sample.mute Sample.prompt Js.toLowerCase
                   (Sample.opening "hello") Sample.oneMailbox Sample.empty
                   (Error "Failed to post initial message") eq_refl _)).
  intros reason. discriminate.
Defined.

Lemma routed_returns_iff_job_witness :
  let r :=
    handleMessage Sample.mute Sample.prompt Js.toLowerCase
      (Sample.opening "hello")
      Sample.oneMailbox Sample.empty in
  result r = Normal tt
  <-> existsb isTriggerEvent (newOps Sample.empty (world r)) = true.
Proof.
  refine (routed_returns_iff_job Sample.mute Sample.prompt Js.toLowerCase
            (Sample.opening "hello") Sample.oneMailbox Sample.empty
            "hello" Sample.support _ eq_refl).
  apply opening_routed. discriminate.
Defined.

(** A reply that names the Billing mailbox, in a Thread bound to Support:
    the Thread is bound to Billing although the placeholder fails. *)
Lemma binding_is_persisted_witness :
  let r :=
    handleMessage Sample.mute Sample.prompt Js.toLowerCase
      (Sample.reply "please ask billing") Sample.twoMailboxes Sample.bound in
  result r = Thrown (Error "Failed to post initial message")
  /\ exists t,
       find (threadMatches "C1" "1700000100.000100") (agentThreads (world r))
       = Some t
       /\ AgentThread.mailboxId t = Some 2.
Proof.
  intros r. split; [reflexivity|].
  destruct (binding_is_persisted Sample.mute Sample.prompt Js.toLowerCase
              (Sample.reply "please ask billing") Sample.twoMailboxes
              Sample.bound "please ask billing" Sample.support)
    as (t & Hfind & _ & Hbound).
  - exact bound_uniqueRoots.
  - apply reply_routed. discriminate.
  - reflexivity.
  - intros reason. discriminate.
  - exists t. split; [exact Hfind | exact Hbound].
Defined.


(** A reply that names a second mailbox, which has no credential. *)
Lemma mention_without_credential_witness :
  let r :=
    handleMessage (Sample.api []) Sample.prompt Js.toLowerCase
      (Sample.reply "please ask billing")
      {| mailboxes := [Sample.support; Mailbox.mk 2 "Billing" None None];
         currentMailbox := Some Sample.support |}
      Sample.bound in
  forallb isDbCall (newOps Sample.bound (world r)) = true
  /\ result r = Thrown NotDefined
  /\ exists t,
       find (threadMatches "C1" "1700000100.000100") (agentThreads (world r))
       = Some t
       /\ AgentThread.mailboxId t = Some 2.
Proof.
  intros r.
  destruct (mention_without_credential (Sample.api []) Sample.prompt
              Js.toLowerCase (Sample.reply "please ask billing")
              {| mailboxes :=
                   [Sample.support; Mailbox.mk 2 "Billing" None None];
                 currentMailbox := Some Sample.support |}
              Sample.bound "please ask billing" Sample.support
              (Mailbox.mk 2 "Billing" None None))
    as (Hdb & Hrest).
  - exact bound_uniqueRoots.
  - apply reply_routed. discriminate.
  - reflexivity.
  - reflexivity.
  - reflexivity.
  - destruct Hrest as (Hr & _ & Ht); [intros reason; discriminate|].
    split; [exact Hdb|]. split; [exact Hr | exact Ht].
Defined.

(** A reply and a message in another channel, one after the other. *)
Lemma roots_stay_unique_witness :
  uniqueRoots
    (deliverAll (Sample.api []) Sample.prompt Js.toLowerCase
       [(Sample.reply "any news?", Sample.oneMailbox);
        (Event.mk "C2" "1700000400.000100" None (Some "hello") (Some "U2")
           None None,
         Sample.oneMailbox)]
       Sample.bound).
Proof.
  apply roots_stay_unique. unfold uniqueRoots. cbn.
  repeat constructor. intros [].
Defined.

(** The reply, delivered twice. *)
Lemma messages_stay_unique_witness :
  uniqueMessages
    (deliverAll (Sample.api []) Sample.prompt Js.toLowerCase
       [(Sample.reply "any news?", Sample.oneMailbox);
        (Sample.reply "any news?", Sample.oneMailbox)]
       Sample.bound).
Proof.
  apply messages_stay_unique. unfold uniqueMessages. cbn.
  repeat constructor. intros [].
Defined.

Lemma primaryKey_deliverAll_witness :
  primaryKey
    (deliverAll (Sample.api []) Sample.prompt Js.toLowerCase
       [(Sample.reply "any news?", Sample.oneMailbox);
        (Event.mk "C2" "1700000400.000100" None (Some "hello") (Some "U2")
           None None,
         Sample.oneMailbox)]
       Sample.bound).
Proof.
  apply primaryKey_deliverAll. exact bound_primaryKey.
Defined.

(** The Thread of the samples, after a reply that rebinds it. *)
Lemma threads_persist_witness :
  exists t,
    find (threadMatches "C1" "1700000100.000100")
      (agentThreads
         (deliverAll (Sample.api []) Sample.prompt Js.toLowerCase
            [(Sample.reply "please ask billing", Sample.twoMailboxes)]
            Sample.bound))
    = Some t
    /\ threadKey t = (1, "C1", "1700000100.000100").
Proof.
  exact (threads_persist (Sample.api []) Sample.prompt Js.toLowerCase
           [(Sample.reply "please ask billing", Sample.twoMailboxes)]
           Sample.bound "C1" "1700000100.000100"
           (AgentThread.mk 1 "C1" "1700000100.000100" (Some 1))
           bound_uniqueRoots eq_refl).
Defined.

(** An assistant thread that starts, and an API that accepts every call. *)
Lemma prompts_follow_greeting_witness :
  Assistant.postMessage Assistant.accepting [] "xoxb-support" "D1"
    "1700000300.000100" Assistant.greeting
  = Resolved tt
  /\ snd (Assistant.handleAssistantThreadMessage Assistant.accepting
            Assistant.started Sample.oneMailbox [])
     = [Assistant.ChatPostMessage "xoxb-support" "D1" "1700000300.000100"
          Assistant.greeting;
        Assistant.SetSuggestedPrompts "xoxb-support" "D1" "1700000300.000100"
          Assistant.suggestedPrompts].
Proof.
  destruct (prompts_follow_greeting Assistant.accepting Assistant.started
              Sample.oneMailbox [] "xoxb-support" "D1" "1700000300.000100"
              Assistant.suggestedPrompts)
    as (_ & _ & _ & _ & Hpost & Hcalls).
  - right. now left.
  - split; [exact Hpost | exact Hcalls].
Defined.
